(** * Document retrieval of gen_ai/common/document_retriever.py

    A shallow embedding of the retrieval core: the filter preparation
    ([remove_member_id] and the first lines of
    [get_related_docs_from_store]), the single-query retrieval of
    [SemanticDocumentRetriever], the multi-query aggregation of the base
    class [DocumentRetriever], the routed retrieval
    [get_related_docs_from_store_uhg] and the provider.

    Python dictionaries are objects that are passed by reference, so the
    metadata dictionaries live in a heap of locations, and the functions
    are written in a small state-and-error monad over that heap and a log
    of the calls that were made. *)

From Stdlib Require Import QArith.QArith_base.
From stdpp Require Import gmap strings list fin_maps pretty.

Set Warnings "-clear-no-such-hyp".

Local Open Scope string_scope.
Local Open Scope list_scope.

(** ** Data model *)

(** A metadata dictionary: [dict[str, str]]. *)
Abbreviation dict := (gmap string string).

(** [langchain_core.documents.base.Document]: a text body and a metadata
    mapping. Documents are compared by these two attributes. *)
Record Document := mkDocument {
  page_content : string;
  metadata : dict
}.

#[global] Instance Document_eq_dec : EqDecision Document.
Proof. solve_decision. Defined.

(** The pair under which a document is looked up in the seen-set. *)
Definition doc_key (d : Document) : string * dict :=
  (page_content d, metadata d).

#[global] Instance doc_key_inj : Inj (=) (=) doc_key.
Proof. intros [c1 m1] [c2 m2] H. unfold doc_key in H. simpl in H. congruence. Qed.

(** The filter argument of the vector store: either a plain dictionary, or
    the conjunctive form [{"$and": [{k1: v1}, {k2: v2}, ...]}]. *)
Inductive Filter :=
  | FPlain (m : dict)
  | FAnd (clauses : list (string * string)).

(** The keys a filter constrains. *)
Definition filter_keys (f : Filter) : list string :=
  match f with
  | FPlain m => (map_to_list m).*1
  | FAnd clauses => clauses.*1
  end.

(** Exceptions that the modelled code can raise. [StoreError] is what the
    store raises when a search fails; [InvalidReference] is the outcome of
    using a location that holds no dictionary, which no Python caller can
    produce. *)
Inductive exn :=
  | ValueError (msg : string)
  | KeyError (key : string)
  | StoreError (msg : string)
  | InvalidReference.

Inductive Res (A : Type) :=
  | Ok (a : A)
  | Raise (e : exn).
Arguments Ok {A} a.
Arguments Raise {A} e.

(** The vector store ([Chroma]) is an external collaborator: its two search
    methods are taken as they are, each answering with a list or raising. The
    [filter] keyword argument is optional in both. *)
Record Chroma := mkChroma {
  similarity_search_with_score :
    string -> nat -> option Filter -> Res (list (Document * Q));
  max_marginal_relevance_search :
    string -> nat -> Q -> option Filter -> Res (list Document)
}.

(** ** Heap, call log and the monad *)

Abbreviation loc := positive.

(** What the log records: the entry into the single-query retrieval, with the
    question and the contents of the metadata argument at that moment, and the
    two kinds of request sent to the store, with their arguments. *)
Inductive Event :=
  | EvRetrieve (question : string) (scope : option dict)
  | EvSimilarity (query : string) (k : nat) (flt : option Filter)
  | EvMMR (query : string) (k : nat) (lambda_mult : Q) (flt : option Filter).

Record State := mkState {
  heap : gmap loc dict;
  log : list Event
}.

Definition M (A : Type) : Type := State -> Res A * State.

Definition ret {A} (a : A) : M A := fun s => (Ok a, s).

Definition bind {A B} (m : M A) (f : A -> M B) : M B :=
  fun s =>
    match m s with
    | (Ok a, s') => f a s'
    | (Raise e, s') => (Raise e, s')
    end.

Definition raise {A} (e : exn) : M A := fun s => (Raise e, s).

Notation "x <- c1 ;; c2" := (bind c1 (fun x => c2))
  (at level 100, c1 at next level, right associativity).
Notation "c1 ;;; c2" := (bind c1 (fun _ => c2))
  (at level 100, right associativity).

Definition emit (e : Event) : M unit :=
  fun s => (Ok tt, mkState (heap s) (log s ++ [e])).

(** *** Dictionary objects *)

(** A dictionary display [{...}]: a new object. *)
Definition new_dict (d : dict) : M loc :=
  fun s =>
    let l := fresh (dom (heap s)) in
    (Ok l, mkState (<[l := d]> (heap s)) (log s)).

Definition read_dict (l : loc) : M dict :=
  fun s =>
    match heap s !! l with
    | Some d => (Ok d, s)
    | None => (Raise InvalidReference, s)
    end.

Definition write_dict (l : loc) (d : dict) : M unit :=
  fun s => (Ok tt, mkState (<[l := d]> (heap s)) (log s)).

(** [copy.deepcopy(d)]: the values are strings, so the copy is a new object
    with the same entries. *)
Definition deepcopy (l : loc) : M loc :=
  d <- read_dict l ;; new_dict d.

(** [key in d] *)
Definition dict_contains (l : loc) (key : string) : M bool :=
  d <- read_dict l ;; ret (bool_decide (is_Some (d !! key))).

(** [del d[key]] *)
Definition dict_del (l : loc) (key : string) : M unit :=
  d <- read_dict l ;;
  match d !! key with
  | Some _ => write_dict l (delete key d)
  | None => raise (KeyError key)
  end.

(** [d[key] = value] *)
Definition dict_set (l : loc) (key value : string) : M unit :=
  d <- read_dict l ;; write_dict l (<[key := value]> d).

(** [len(d)] *)
Definition dict_len (l : loc) : M nat :=
  d <- read_dict l ;; ret (size d).

(** *** Requests to the store *)

Definition call_similarity (store : Chroma) (query : string) (k : nat)
    (flt : option Filter) : M (list (Document * Q)) :=
  emit (EvSimilarity query k flt) ;;;
  fun s => (similarity_search_with_score store query k flt, s).

Definition call_mmr (store : Chroma) (query : string) (k : nat)
    (lambda_mult : Q) (flt : option Filter) : M (list Document) :=
  emit (EvMMR query k lambda_mult flt) ;;;
  fun s => (max_marginal_relevance_search store query k lambda_mult flt, s).

(** ** Helpers of the repository that the retriever imports *)

(** Modelled from the spec: [common.remove_duplicates] (gen_ai/common/common.py
    is not among the sources). Section 4.3: one pass over the documents with a
    seen-set keyed on (content, metadata); a document is kept when its key has
    not been seen, so the result is in first-seen order. *)
Fixpoint remove_duplicates_from (seen : gset (string * dict))
    (docs : list Document) : list Document :=
  match docs with
  | [] => []
  | doc :: rest =>
      if decide (doc_key doc ∈ seen)
      then remove_duplicates_from seen rest
      else doc :: remove_duplicates_from ({[doc_key doc]} ∪ seen) rest
  end.

Definition remove_duplicates (docs : list Document) : list Document :=
  remove_duplicates_from ∅ docs.

(** Modelled from the spec: [chroma_utils.convert_to_chroma_format]
    (gen_ai/common/chroma_utils.py is not among the sources). Section 4.1: the
    mapping becomes an AND of equality constraints over its entries. *)
Definition convert_to_chroma_format (m : dict) : Filter :=
  FAnd (map_to_list m).

(** ** document_retriever.py *)

(** [remove_member_id], lines 25-40. *)
Definition remove_member_id (metadata : loc) : M loc :=
  new_metadata <- deepcopy metadata ;;
  has <- dict_contains new_metadata "member_id" ;;
  (if has : bool then dict_del new_metadata "member_id" else ret tt) ;;;
  ret new_metadata.

(** The retriever variants: the subclasses of [DocumentRetriever]. *)
Inductive DocumentRetriever : Set :=
  | SemanticDocumentRetriever.

(** [DocumentRetrieverProvider.__call__], lines 43-48. *)
Definition DocumentRetrieverProvider (name : string) : Res DocumentRetriever :=
  if decide (name = "semantic")
  then Ok SemanticDocumentRetriever
  else Raise (ValueError "Not implemented document retriver").

(** Lines 127-131 of [SemanticDocumentRetriever.get_related_docs_from_store]:
    what the local variable [metadata] holds before the searches. *)
Definition prepare_filter (metadata : option loc) : M Filter :=
  metadata <- match metadata with
              | None => new_dict ∅
              | Some l => ret l
              end ;;
  metadata <- remove_member_id metadata ;;
  n <- dict_len metadata ;;
  m <- read_dict metadata ;;
  if decide (1 < n)
  then ret (convert_to_chroma_format m)
  else ret (FPlain m).

(** The contents of the metadata argument, for the log. *)
Definition snapshot (metadata : option loc) : M (option dict) :=
  match metadata with
  | None => ret None
  | Some l => m <- read_dict l ;; ret (Some m)
  end.

(** [SemanticDocumentRetriever.get_related_docs_from_store], lines 123-141.
    Neither search is given a [filter] argument. The [trace_on] decorator
    wraps the call for logging and does not touch arguments or result; the
    entry in the log stands for the call. *)
Definition semantic_get_related_docs_from_store (store : Chroma)
    (questions_for_search : string) (metadata : option loc)
    : M (list Document) :=
  scope <- snapshot metadata ;;
  emit (EvRetrieve questions_for_search scope) ;;;
  _ <- prepare_filter metadata ;;
  ss_docs <- call_similarity store questions_for_search 50 None ;;
  let ss_docs := (take 20 ss_docs).*1 in
  mmr_docs <- call_mmr store questions_for_search 1 (1 # 2)%Q None ;;
  let docs := remove_duplicates (ss_docs ++ mmr_docs) in
  ret docs.

(** The abstract method [get_related_docs_from_store], dispatched on the
    variant. *)
Definition get_related_docs_from_store (self : DocumentRetriever)
    (store : Chroma) (questions_for_search : string) (metadata : option loc)
    : M (list Document) :=
  match self with
  | SemanticDocumentRetriever =>
      semantic_get_related_docs_from_store store questions_for_search metadata
  end.

(** The loop of lines 83-84: [documents.extend(...)] for each question. *)
Fixpoint extend_for_questions (self : DocumentRetriever) (store : Chroma)
    (questions : list string) (metadata : option loc)
    (documents : list Document) : M (list Document) :=
  match questions with
  | [] => ret documents
  | question :: rest =>
      found <- get_related_docs_from_store self store question metadata ;;
      extend_for_questions self store rest metadata (documents ++ found)
  end.

(** [DocumentRetriever.get_multiple_related_docs_from_store], lines 79-86. *)
Definition get_multiple_related_docs_from_store (self : DocumentRetriever)
    (store : Chroma) (questions_for_search : list string)
    (metadata : option loc) : M (list Document) :=
  documents <- extend_for_questions self store questions_for_search metadata [] ;;
  let documents := remove_duplicates documents in
  ret documents.

(** The loop of lines 160-161: [docs.extend(...)] for each derived scope. *)
Fixpoint extend_for_metadatas (store : Chroma) (questions_for_search : string)
    (metadatas : list loc) (docs : list Document) : M (list Document) :=
  match metadatas with
  | [] => ret docs
  | metadata :: rest =>
      found <- semantic_get_related_docs_from_store store questions_for_search
                 (Some metadata) ;;
      extend_for_metadatas store questions_for_search rest (docs ++ found)
  end.

(** Lines 148-149: the single retrieval on the default partition. *)
Definition uhg_default (store : Chroma) (questions_for_search : string)
    : M (list Document) :=
  custom_metadata <- new_dict {[ "data_source" := "kc" ]} ;;
  semantic_get_related_docs_from_store store questions_for_search
    (Some custom_metadata).

(** Lines 151-163: the two derived scopes and the retrieval on each. *)
Definition uhg_fan_out (store : Chroma) (questions_for_search : string)
    (metadata : loc) : M (list Document) :=
  b360_metadata <- deepcopy metadata ;;
  dict_set b360_metadata "data_source" "b360" ;;;
  kc_metadata <- deepcopy metadata ;;
  dict_set kc_metadata "data_source" "kc" ;;;
  has <- dict_contains kc_metadata "set_number" ;;
  (if has : bool then dict_del kc_metadata "set_number" else ret tt) ;;;
  let metadatas := [b360_metadata; kc_metadata] in
  extend_for_metadatas store questions_for_search metadatas [].

(** [SemanticDocumentRetriever.get_related_docs_from_store_uhg],
    lines 142-163. *)
Definition get_related_docs_from_store_uhg (store : Chroma)
    (questions_for_search : string) (metadata : option loc)
    : M (list Document) :=
  match metadata with
  | None => uhg_default store questions_for_search
  | Some l =>
      has <- dict_contains l "set_number" ;;
      if has : bool
      then uhg_fan_out store questions_for_search l
      else uhg_default store questions_for_search
  end.

(** ** Definitions used in the statements *)

(** The keys of a list of documents, as the seen-set holds them. *)
Definition keys_of (docs : list Document) : gset (string * dict) :=
  list_to_set (doc_key <$> docs).

(** The wording of the spec, without a seen-set: the documents of the input
    that do not occur earlier in the input, in input order. *)
Definition first_occurrences (docs : list Document) : list Document :=
  omap id
    (imap (λ i d, if decide (d ∈ take i docs) then None else Some d) docs).

(** The object that the next allocation in a state creates. *)
Definition next_loc (s : State) : loc := fresh (dom (heap s)).

(** The entries a metadata argument stands for: [None] is treated as [{}]. *)
Definition scope_contents (h : gmap loc dict) (metadata : option loc)
    : option dict :=
  match metadata with
  | None => Some ∅
  | Some l => h !! l
  end.

(** What [snapshot] records for a metadata argument. *)
Definition scope_of (h : gmap loc dict) (metadata : option loc) : option dict :=
  match metadata with
  | None => None
  | Some l => h !! l
  end.

(** The translation step of lines 130-131 on the entries that remain. *)
Definition translate (kept : dict) : Filter :=
  if decide (1 < size kept) then convert_to_chroma_format kept else FPlain kept.

(** What the two searches of one retrieval amount to, as a function of the
    store and the question alone. *)
Definition retrieval_result (store : Chroma) (question : string)
    : Res (list Document) :=
  match similarity_search_with_score store question 50 None with
  | Raise e => Raise e
  | Ok ss_docs =>
      match max_marginal_relevance_search store question 1 (1 # 2)%Q None with
      | Raise e => Raise e
      | Ok mmr_docs => Ok (remove_duplicates ((take 20 ss_docs).*1 ++ mmr_docs))
      end
  end.

(** The requests one retrieval sends to the store: the diversity search is
    only reached when the similarity search has answered. *)
Definition store_requests (store : Chroma) (question : string) : list Event :=
  EvSimilarity question 50 None ::
  match similarity_search_with_score store question 50 None with
  | Ok _ => [EvMMR question 1 (1 # 2)%Q None]
  | Raise _ => []
  end.

(** The default partition tag of line 148. *)
Definition kc_only : dict := {[ "data_source" := "kc" ]}.

(** The two derived scopes of lines 151-157, as entries. *)
Definition b360_scope (m : dict) : dict := <["data_source" := "b360"]> m.

Definition kc_scope (m : dict) : dict :=
  delete "set_number" (<["data_source" := "kc"]> m).

(** What the fan-out returns and logs, as a function of the store, the
    question and the entries of the caller's scope. *)
Definition fan_out_result (store : Chroma) (question : string)
    : Res (list Document) :=
  match retrieval_result store question with
  | Ok found => Ok (found ++ found)
  | Raise e => Raise e
  end.

Definition fan_out_events (store : Chroma) (question : string) (m : dict)
    : list Event :=
  EvRetrieve question (Some (b360_scope m)) :: store_requests store question ++
  match retrieval_result store question with
  | Ok _ => EvRetrieve question (Some (kc_scope m)) :: store_requests store question
  | Raise _ => []
  end.

(** The entries into the single-query retrieval among some events. *)
Definition retrievals (events : list Event) : list (string * option dict) :=
  omap (λ e, match e with
             | EvRetrieve question scope => Some (question, scope)
             | _ => None
             end) events.

(** The filter argument that a request to the store carries. *)
Definition request_filter (e : Event) : option Filter :=
  match e with
  | EvRetrieve _ _ => None
  | EvSimilarity _ _ flt => flt
  | EvMMR _ _ _ flt => flt
  end.

(** Concrete inputs. *)
Definition letter_doc (i : nat) : Document :=
  mkDocument (String (Ascii.ascii_of_nat (65 + i)) EmptyString) {[ "data_source" := "kc" ]}.

(** Fifty ranked hits, the twenty-first repeating the sixth; the diversity
    search answers with the fourth. *)
Definition example_hits : list (Document * Q) :=
  (λ i, (letter_doc (if decide (i = 20) then 5 else i), (1 # 1)%Q)) <$> seq 0 50.

Definition example_store : Chroma :=
  mkChroma (λ _ _ _, Ok example_hits) (λ _ _ _ _, Ok [letter_doc 3]).

Definition example_scope : dict :=
  {[ "set_number" := "abc"; "member_id" := "m1" ]}.

Definition example_state : State :=
  mkState {[ 1%positive := example_scope ]} [].

(** A store with a single document, and a caller whose scope is
    [{"set_number": "abc"}]. *)
Definition single_store : Chroma :=
  mkChroma (λ _ _ _, Ok [(letter_doc 0, (1 # 1)%Q)]) (λ _ _ _ _, Ok [letter_doc 0]).

Definition scoped_state : State :=
  mkState {[ 1%positive := {[ "set_number" := "abc" ]} ]} [].

(** ** Definitions for the properties of a batch *)

(** What the retrievals for the questions of a batch bring back, in batch
    order, up to the first one that raises. *)
Fixpoint batch_results (store : Chroma) (questions : list string)
    : Res (list Document) :=
  match questions with
  | [] => Ok []
  | question :: rest =>
      match retrieval_result store question with
      | Raise e => Raise e
      | Ok found =>
          match batch_results store rest with
          | Raise e => Raise e
          | Ok more => Ok (found ++ more)
          end
      end
  end.

(** The events of a batch on a scope, up to the first retrieval that raises. *)
Fixpoint batch_events (store : Chroma) (scope : option dict)
    (questions : list string) : list Event :=
  match questions with
  | [] => []
  | question :: rest =>
      EvRetrieve question scope :: store_requests store question ++
      match retrieval_result store question with
      | Ok _ => batch_events store scope rest
      | Raise _ => []
      end
  end.

(** A store that is unavailable for the question "bad". *)
Definition flaky_store : Chroma :=
  mkChroma
    (λ query _ _, if decide (query = "bad")
                  then Raise (StoreError "index unavailable")
                  else Ok example_hits)
    (λ _ _ _ _, Ok [letter_doc 3]).

(** * check_pipeline.py and bq_utils.py *)

(** ** Programs over a world, with exceptions *)

(** The outcome of a call: a value, or an exception of type [E]. *)
Inductive Outcome (E A : Type) :=
  | Done (a : A)
  | Failed (e : E).
Arguments Done {E A} a.
Arguments Failed {E A} e.

Definition Prog (W E A : Type) : Type := W → Outcome E A * W.

Definition pure {W E A} (a : A) : Prog W E A := λ w, (Done a, w).

Definition throw {W E A} (e : E) : Prog W E A := λ w, (Failed e, w).

Definition and_then {W E A B} (m : Prog W E A) (f : A → Prog W E B)
    : Prog W E B :=
  λ w, match m w with
       | (Done a, w') => f a w'
       | (Failed e, w') => (Failed e, w')
       end.

(** [try: body / except <class>: handler]: the handler runs on the exceptions
    that [caught] selects, in the world the body left behind; the others
    propagate. *)
Definition try_except {W E A} (body : Prog W E A) (caught : E → bool)
    (handler : E → Prog W E A) : Prog W E A :=
  λ w, match body w with
       | (Done a, w') => (Done a, w')
       | (Failed e, w') => if caught e then handler e w' else (Failed e, w')
       end.

(** The answer of an external call, as it is. *)
Definition external {W E A} (answer : Outcome E A) : Prog W E A :=
  λ w, (answer, w).

Notation "x <~ c1 ;; c2" := (and_then c1 (λ x, c2))
  (at level 100, c1 at next level, right associativity).
Notation "c1 ;;, c2" := (and_then c1 (λ _, c2))
  (at level 100, right associativity).

(** ** check_pipeline.py *)

Module CheckPipeline.

(** A Python object found in a cell of a row: a [str], or an object of another
    type (a number, a missing value), known by what [str()] makes of it. *)
Inductive PyValue :=
  | PyStr (s : string)
  | PyOther (rendering : string).

(** [str(v)], as the f-strings apply it. *)
Definition py_str (v : PyValue) : string :=
  match v with
  | PyStr s => s
  | PyOther rendering => rendering
  end.

Inductive exn :=
  | ValueError (msg : string)
  | KeyError (key : string)
  | AttributeError (attribute : string)
  | IndexError
  | UnboundLocalError (name : string)
  | ExternalError (msg : string).

(** What [llm.respond_api] returns: a conversation whose exchanges carry an
    answer. *)
Record Exchange := mkExchange { answer : string }.

Record Conversation := mkConversation { exchanges : list Exchange }.

(** A row of the DataFrame: column label to cell. *)
Abbreviation row := (gmap string PyValue).

(** What the module takes from outside: the language-model API, the CSV
    reader, the truth value of [Container.config.get("personalization")], the
    value [uuid.uuid4()] gives, and [str.lower]. *)
Record Env := mkEnv {
  respond_api : PyValue → option dict → Outcome exn Conversation;
  read_csv : option string → Outcome exn (list row);
  personalization : bool;
  uuid4 : string;
  str_lower : string → string
}.

(** A record handed to [Container.logger().info]: a text, or an exception
    object. *)
Inductive LogRecord :=
  | Info (msg : string)
  | InfoException (e : exn).

(** The world of the module: the two attributes of [Container] that it
    sets, the records given to the logger, and the calls made to the
    language-model API. *)
Record World := mkWorld {
  session_id : option string;
  comments : option string;
  logged : list LogRecord;
  asked : list (PyValue * option dict)
}.

Abbreviation P := (Prog World exn).

Definition info (r : LogRecord) : P unit :=
  λ w, (Done tt, mkWorld (session_id w) (comments w) (logged w ++ [r]) (asked w)).

Definition set_session_id (v : string) : P unit :=
  λ w, (Done tt, mkWorld (Some v) (comments w) (logged w) (asked w)).

Definition set_comments (v : option string) : P unit :=
  λ w, (Done tt, mkWorld (session_id w) v (logged w) (asked w)).

Definition call_respond_api (env : Env) (question : PyValue)
    (member_context_full : option dict) : P Conversation :=
  λ w, (respond_api env question member_context_full,
        mkWorld (session_id w) (comments w) (logged w)
          (asked w ++ [(question, member_context_full)])).

Definition apology : string :=
  "I apologize, but no answer is available at this time.".

(** [run_single_prediction], lines 44-64. [exchanges[-1]] raises [IndexError]
    on an empty list; [except Exception] catches every exception here. *)
Definition run_single_prediction (env : Env) (question : PyValue)
    (member_context_full : option dict) : P string :=
  try_except
    (conversation <~ call_respond_api env question member_context_full ;;
     match last (exchanges conversation) with
     | Some exchange => pure (answer exchange)
     | None => throw IndexError
     end)
    (λ _, true)
    (λ e, info (InfoException e) ;;, pure apology).

(** [get_default_personalized_info], lines 67-83. A cell that is not a [str]
    has no [lower]. *)
Definition get_default_personalized_info (env : Env) (r : row)
    : P (option dict) :=
  match r !! "set_number" with
  | Some (PyStr s) => pure (Some {[ "set_number" := str_lower env s ]})
  | Some (PyOther _) => throw (AttributeError "lower")
  | None =>
      info (Info "Personalization info does not have set_number, falling back to None") ;;,
      pure None
  end.

(** The loop of lines 117-125 over [df.iterrows()], with the index as
    position. The local variable [personalized_data] is bound only once the
    branch of line 123 has run: [None] here is the unbound variable. *)
Fixpoint batch_loop (env : Env) (rows : list row) (i : nat)
    (personalized_data : option (option dict)) : P unit :=
  match rows with
  | [] => pure tt
  | r :: rest =>
      info (Info ("Asking question " +:+ pretty i +:+ " in document ")) ;;,
      question <~ match r !! "question" with
                  | Some v => pure v
                  | None => throw (KeyError "question")
                  end ;;
      info (Info ("Question: " +:+ py_str question)) ;;,
      personalized_data <~
        (if personalization env
         then found <~ get_default_personalized_info env r ;; pure (Some found)
         else pure personalized_data) ;;
      match personalized_data with
      | None => throw (UnboundLocalError "personalized_data")
      | Some context =>
          text <~ run_single_prediction env question context ;;
          info (Info ("Answer: " +:+ text)) ;;,
          batch_loop env rest (S i) (Some context)
      end
  end.

(** The loop of lines 128-132 over the enumerated list of questions. *)
Fixpoint step_loop (env : Env) (queries : list string) (idx : nat) : P unit :=
  match queries with
  | [] => pure tt
  | input_query :: rest =>
      info (Info ("Asking question " +:+ pretty idx +:+ " in document ")) ;;,
      info (Info ("Question: " +:+ input_query)) ;;,
      text <~ run_single_prediction env (PyStr input_query)
                (Some {[ "set_number" := "" ]}) ;;
      info (Info ("Answer: " +:+ text)) ;;,
      step_loop env rest (S idx)
  end.

(** [run_pipeline], lines 90-136. The timer and the line printed to standard
    output at the end of the step mode are not part of the world. *)
Definition run_pipeline (env : Env) (mode : string) (csv_path : option string)
    (comments : option string) : P unit :=
  let session_id := uuid4 env in
  set_session_id session_id ;;,
  info (Info ("Session id is: " +:+ session_id)) ;;,
  set_comments comments ;;,
  if decide (mode = "batch") then
    df <~ external (read_csv env csv_path) ;;
    batch_loop env df 0 None
  else if decide (mode = "step") then
    step_loop env ["What has EQT management said about optimal capital structure"] 0
  else throw (ValueError "Not implemented mode").

(** The world before [run_pipeline]: [Container.comments] is "None". *)
Definition initial : World := mkWorld None (Some "None") [] [].

End CheckPipeline.

(** ** bq_utils.py *)

Module BqUtils.

(** [NotFound] is a subclass of [GoogleAPIError]; [OtherError] stands for
    the exceptions of every other class. *)
Inductive exn :=
  | NotFound (msg : string)
  | GoogleAPIError (msg : string)
  | KeyError (key : string)
  | AttributeError (attribute : string)
  | OtherError (msg : string).

(** [except GoogleAPIError] *)
Definition is_google_api_error (e : exn) : bool :=
  match e with
  | NotFound _ | GoogleAPIError _ => true
  | _ => false
  end.


(** A value of the configuration: a string or null. *)
Inductive CfgValue :=
  | CfgStr (s : string)
  | CfgNone.

(** [not v] is false exactly on the non-empty strings. *)
Definition cfg_truthy (v : CfgValue) : bool :=
  match v with
  | CfgStr s => bool_decide (s ≠ "")
  | CfgNone => false
  end.

Abbreviation Schema := (list (string * string)).

(** A [pandas.DataFrame], as its rows. *)
Abbreviation DataFrame := (list dict).

(** The requests that reach Google: authentication, the client constructor
    and the methods of the client and of a load job, with their arguments. *)
Inductive Call :=
  | AuthDefault
  | NewClient (project : option string)
  | DeleteDataset (dataset_id : string) (delete_contents not_found_ok : bool)
  | GetDataset (dataset_id : string)
  | CreateDataset (dataset_id location : string) (timeout : nat)
  | GetTable (table_id : string)
  | DeleteTable (table_id : string)
  | CreateTable (table_id : string) (schema : Schema)
  | LoadTableFromDataframe (df : DataFrame) (table_id : string) (schema : Schema)
  | JobResult (job : nat)
  | InsertRowsJson (table_id : string) (rows : list dict).

(** Google's side, as a machine with a state of its own: each request
    answers or raises and moves the state. [job_errors] reads the [errors]
    attribute of a load job; [new_dataset] and [new_table] are the
    constructors [bigquery.Dataset] and [bigquery.Table], which build an
    object locally or raise. *)
Record Service (σ : Type) := mkService {
  new_dataset : string → Outcome exn unit;
  new_table : string → Schema → Outcome exn unit;
  auth_default : σ → Outcome exn (option string) * σ;
  new_client : option string → σ → Outcome exn unit * σ;
  delete_dataset : string → σ → Outcome exn unit * σ;
  get_dataset : string → σ → Outcome exn unit * σ;
  create_dataset_request : string → string → σ → Outcome exn unit * σ;
  get_table : string → σ → Outcome exn unit * σ;
  delete_table : string → σ → Outcome exn unit * σ;
  create_table_request : string → Schema → σ → Outcome exn unit * σ;
  load_table_from_dataframe :
    DataFrame → string → Schema → σ → Outcome exn nat * σ;
  job_result : nat → σ → Outcome exn unit * σ;
  job_errors : nat → σ → option (list dict);
  insert_rows_json : string → list dict → σ → Outcome exn (list dict) * σ
}.
Arguments new_dataset {σ}.
Arguments new_table {σ}.
Arguments auth_default {σ}.
Arguments new_client {σ}.
Arguments delete_dataset {σ}.
Arguments get_dataset {σ}.
Arguments create_dataset_request {σ}.
Arguments get_table {σ}.
Arguments delete_table {σ}.
Arguments create_table_request {σ}.
Arguments load_table_from_dataframe {σ}.
Arguments job_result {σ}.
Arguments job_errors {σ}.
Arguments insert_rows_json {σ}.

(** What the module reads from its surroundings: [Container.config] and
    [uuid.uuid5(uuid.NAMESPACE_DNS, name)] as a string. *)
Record Env := mkEnv {
  config : gmap string CfgValue;
  uuid5_dns : string → string
}.

(** The world: the state of Google's side, the requests made so far, and
    [Container.question_id]. Lines printed to standard output are not part
    of it. *)
Record World (σ : Type) := mkWorld {
  backend : σ;
  calls : list Call;
  question_id : option string
}.
Arguments mkWorld {σ}.
Arguments backend {σ}.
Arguments calls {σ}.
Arguments question_id {σ}.

(** A request: it is recorded, and the service answers. *)
Definition invoke {σ R} (c : Call) (op : σ → Outcome exn R * σ)
    : Prog (World σ) exn R :=
  λ w, let '(r, b) := op (backend w) in
       (r, mkWorld b (calls w ++ [c]) (question_id w)).

(** A [bigquery.Client]. *)
Record Client := mkClient { project : option string }.

(** [create_bq_client], lines 42-62. *)
Definition create_bq_client {σ} (svc : Service σ) (project_id : option string)
    : Prog (World σ) exn (option Client) :=
  resolved <~ match project_id with
              | Some p => pure (Some (Some p))
              | None =>
                  try_except
                    (found <~ invoke AuthDefault (auth_default svc) ;;
                     pure (Some found))
                    is_google_api_error
                    (λ _, pure None)
              end ;;
  match resolved with
  | None => pure None
  | Some project_id =>
      try_except
        (invoke (NewClient project_id) (new_client svc project_id) ;;,
         pure (Some (mkClient project_id)))
        is_google_api_error
        (λ _, pure None)
  end.



(** The loop of lines 138-141: [error['message']] is read for each error. *)
Fixpoint report_errors {σ} (errors : list dict) : Prog (World σ) exn unit :=
  match errors with
  | [] => pure tt
  | error :: rest =>
      match error !! "message" with
      | Some _ => report_errors rest
      | None => throw (KeyError "message")
      end
  end.

(** [load_data_to_bq], lines 119-141. The handler finds [job] bound exactly
    when [load_table_from_dataframe] has returned. *)
Definition load_data_to_bq {σ} (svc : Service σ) (client : Client)
    (table_id : string) (schema : Schema) (df : DataFrame)
    : Prog (World σ) exn unit :=
  λ w,
    match invoke (LoadTableFromDataframe df table_id schema)
            (load_table_from_dataframe svc df table_id schema) w with
    | (Failed e, w1) =>
        if is_google_api_error e then (Done tt, w1) else (Failed e, w1)
    | (Done job, w1) =>
        try_except
          (invoke (JobResult job) (job_result svc job))
          is_google_api_error
          (λ _, λ w2, match job_errors svc job (backend w2) with
                      | Some (error :: rest) => report_errors (error :: rest) w2
                      | _ => (Done tt, w2)
                      end)
          w1
    end.

(** [get_dataset_id], lines 241-262. In the f-string a null shows as
    "None". *)
Definition show_project (project_id : option string) : string :=
  match project_id with
  | Some p => p
  | None => "None"
  end.

Definition show_cfg (v : CfgValue) : string :=
  match v with
  | CfgStr s => s
  | CfgNone => "None"
  end.

Definition get_dataset_id {σ} (env : Env) (svc : Service σ)
    : Prog (World σ) exn string :=
  match config env !! "bq_project_id" with
  | None => throw (KeyError "bq_project_id")
  | Some project_id =>
      match config env !! "dataset_name" with
      | None => throw (KeyError "dataset_name")
      | Some dataset_name =>
          project <~ (if cfg_truthy project_id
                      then pure (show_cfg project_id)
                      else found <~ invoke AuthDefault (auth_default svc) ;;
                           pure (show_project found)) ;;
          pure (project +:+ "." +:+ show_cfg dataset_name)
      end
  end.

(** [insert_data_to_table], lines 216-239. [create_bq_client] may have
    returned [None], which has no [get_table]. *)
Definition insert_data_to_table {σ} (env : Env) (svc : Service σ)
    (table_name : string) (data : dict) : Prog (World σ) exn bool :=
  client <~ create_bq_client svc None ;;
  dataset_id <~ get_dataset_id env svc ;;
  match client with
  | None => throw (AttributeError "get_table")
  | Some _ =>
      let table := dataset_id +:+ "." +:+ table_name in
      invoke (GetTable table) (get_table svc table) ;;,
      errors <~ invoke (InsertRowsJson table [data])
                  (insert_rows_json svc table [data]) ;;
      pure (bool_decide (errors = []))
  end.

(** [str.lower] and [re.sub(r"\W", "", s)] on ASCII text: the letters A-Z are
    lowered, and only letters, digits and the underscore are kept. *)
Definition lower_char (c : Ascii.ascii) : Ascii.ascii :=
  let n := Ascii.nat_of_ascii c in
  if decide (65 ≤ n ∧ n ≤ 90)%nat then Ascii.ascii_of_nat (n + 32) else c.

Definition word_char (c : Ascii.ascii) : bool :=
  let n := Ascii.nat_of_ascii c in
  bool_decide ((48 ≤ n ∧ n ≤ 57) ∨ (65 ≤ n ∧ n ≤ 90) ∨ (97 ≤ n ∧ n ≤ 122)
               ∨ n = 95)%nat.

Fixpoint lower (s : string) : string :=
  match s with
  | EmptyString => EmptyString
  | String c rest => String (lower_char c) (lower rest)
  end.

Fixpoint strip_non_word (s : string) : string :=
  match s with
  | EmptyString => EmptyString
  | String c rest =>
      if word_char c then String c (strip_non_word rest) else strip_non_word rest
  end.

Definition set_question_id {σ} (v : string) : Prog (World σ) exn unit :=
  λ w, (Done tt, mkWorld (backend w) (calls w) (Some v)).

(** [log_question], lines 185-214. *)
Definition log_question {σ} (env : Env) (svc : Service σ) (question : string)
    : Prog (World σ) exn string :=
  let question_id := uuid5_dns env (strip_non_word (lower question)) in
  let data : dict := {[ "question_id" := question_id;
                        "question" := question;
                        "parent_question_id" := "" ]} in
  insert_data_to_table env svc "questions" data ;;,
  set_question_id question_id ;;,
  pure question_id.

End BqUtils.

(** ** Definitions for the properties of check_pipeline.py *)

(** The personalization info that a row stands for, when its "set_number"
    cell is a string. *)
Definition personal_info (env : CheckPipeline.Env) (r : CheckPipeline.row)
    : option dict :=
  match r !! "set_number" with
  | Some (CheckPipeline.PyStr s) =>
      Some {[ "set_number" := CheckPipeline.str_lower env s ]}
  | _ => None
  end.

(** A row that the batch loop gets through: it has a question, and its
    "set_number" cell, if any, is a string. *)
Definition row_ok (r : CheckPipeline.row) : Prop :=
  is_Some (r !! "question")
  ∧ ∀ rendering, r !! "set_number" ≠ Some (CheckPipeline.PyOther rendering).

(** The call of the language-model API that a row leads to. *)
Definition row_call (env : CheckPipeline.Env) (r : CheckPipeline.row)
    (call : CheckPipeline.PyValue * option dict) : Prop :=
  r !! "question" = Some call.1 ∧ call.2 = personal_info env r.

(** Lower case for the letters A-Z, for the examples. *)
Fixpoint ascii_lower (s : string) : string :=
  match s with
  | EmptyString => EmptyString
  | String c rest =>
      let n := Ascii.nat_of_ascii c in
      String (if decide (65 ≤ n ∧ n ≤ 90)%nat
              then Ascii.ascii_of_nat (n + 32) else c)
        (ascii_lower rest)
  end.

(** Three rows: with a "set_number", without one, and with a numeric one. *)
Definition row_first : CheckPipeline.row :=
  {[ "question" := CheckPipeline.PyStr "first";
     "set_number" := CheckPipeline.PyStr "AB1" ]}.

Definition row_second : CheckPipeline.row :=
  {[ "question" := CheckPipeline.PyStr "second" ]}.

Definition row_numeric : CheckPipeline.row :=
  {[ "question" := CheckPipeline.PyStr "third";
     "set_number" := CheckPipeline.PyOther "7" ]}.

(** An API that answers every question with two exchanges, except the
    question "down", on which it raises; the CSV file holds the given rows. *)
Definition example_env (personalized : bool) (rows : list CheckPipeline.row)
    : CheckPipeline.Env :=
  CheckPipeline.mkEnv
    (λ question _,
       if decide (CheckPipeline.py_str question = "down")
       then Failed (CheckPipeline.ExternalError "unavailable")
       else Done (CheckPipeline.mkConversation
                    [CheckPipeline.mkExchange "draft";
                     CheckPipeline.mkExchange "final"]))
    (λ _, Done rows)
    personalized
    "1b4e28ba-2fa1-11d2-883f-0016d3cca427"
    ascii_lower.

(** ** Definitions for the properties of bq_utils.py *)

(** Text made of ASCII characters only. *)
Fixpoint ascii_only (s : string) : Prop :=
  match s with
  | EmptyString => True
  | String c rest => (Ascii.nat_of_ascii c < 128)%nat ∧ ascii_only rest
  end.

(** A stand-in for Google's side, for the examples: the state is the set of
    the datasets and tables that exist; [online] tells whether authentication
    works; a load job always fails, with one error that has a message. *)
Definition example_service (online : bool) : BqUtils.Service (gset string) :=
  BqUtils.mkService (gset string)
    (λ _, Done tt)
    (λ _ _, Done tt)
    (λ names, (if online then Done (Some "demo-project")
               else Failed (BqUtils.GoogleAPIError "no credentials"), names))
    (λ _ names, (Done tt, names))
    (λ id names, (Done tt, names ∖ {[id]}))
    (λ id names, (if decide (id ∈ names) then Done tt
                  else Failed (BqUtils.NotFound id), names))
    (λ id _ names, (Done tt, {[id]} ∪ names))
    (λ id names, (if decide (id ∈ names) then Done tt
                  else Failed (BqUtils.NotFound id), names))
    (λ id names, (if decide (id ∈ names) then Done tt
                  else Failed (BqUtils.NotFound id), names ∖ {[id]}))
    (λ id _ names, (Done tt, {[id]} ∪ names))
    (λ _ _ _ names, (Done 0%nat, names))
    (λ _ names, (Failed (BqUtils.GoogleAPIError "load failed"), names))
    (λ _ _, Some [ {[ "message" := "bad row" ]} ])
    (λ _ _ names, (Done [], names)).

Definition example_config : BqUtils.Env :=
  BqUtils.mkEnv
    {[ "bq_project_id" := BqUtils.CfgStr "demo-project";
       "dataset_name" := BqUtils.CfgStr "logs" ]}
    (λ name, "uuid5:" +:+ name).

Definition example_world (names : gset string) : BqUtils.World (gset string) :=
  BqUtils.mkWorld names [] None.

(** * Properties *)

(** ** Deduplication *)

Section Deduplication.
Implicit Types (docs : list Document) (seen : gset (string * dict)).

Lemma elem_of_keys_of d docs : doc_key d ∈ keys_of docs ↔ d ∈ docs.
Proof.
  unfold keys_of. rewrite elem_of_list_to_set, list_elem_of_fmap. split.
  - intros (d' & Heq & Hin). by apply (inj doc_key) in Heq as ->.
  - intros Hin. by exists d.
Qed.

Lemma remove_duplicates_from_elem seen docs d :
  d ∈ remove_duplicates_from seen docs ↔ d ∈ docs ∧ doc_key d ∉ seen.
Proof.
  revert seen. induction docs as [|d0 docs IH]; intros seen; simpl.
  - rewrite elem_of_nil. tauto.
  - destruct (decide (doc_key d0 ∈ seen)) as [Hseen|Hnew].
    + rewrite IH, elem_of_cons. split; [tauto|].
      intros [[->|Hin] Hd]; tauto.
    + rewrite !elem_of_cons, IH, not_elem_of_union, not_elem_of_singleton.
      split.
      * intros [->|(Hin & Hne & Hd)]; tauto.
      * intros [[->|Hin] Hd]; [tauto|].
        destruct (decide (d = d0)) as [->|Hne]; [tauto|].
        right. repeat split; try done.
        intros Heq. by apply (inj doc_key) in Heq.
Qed.

Lemma remove_duplicates_from_NoDup seen docs :
  NoDup (remove_duplicates_from seen docs).
Proof.
  revert seen. induction docs as [|d0 docs IH]; intros seen; simpl.
  - constructor.
  - destruct (decide (doc_key d0 ∈ seen)); [apply IH|].
    apply NoDup_cons. split; [|apply IH].
    rewrite remove_duplicates_from_elem. set_solver.
Qed.

Lemma remove_duplicates_from_sublist seen docs :
  remove_duplicates_from seen docs `sublist_of` docs.
Proof.
  revert seen. induction docs as [|d0 docs IH]; intros seen; simpl.
  - constructor.
  - destruct (decide (doc_key d0 ∈ seen)).
    + apply sublist_cons, IH.
    + apply sublist_skip, IH.
Qed.

(** A list without repetition, none of whose keys has been seen, passes
    unchanged. *)
Lemma remove_duplicates_from_fixed seen docs :
  NoDup docs → (∀ d, d ∈ docs → doc_key d ∉ seen) →
  remove_duplicates_from seen docs = docs.
Proof.
  revert seen. induction docs as [|d0 docs IH]; intros seen Hnd Hnew; simpl.
  - done.
  - apply NoDup_cons in Hnd as [Hd0 Hnd].
    destruct (decide (doc_key d0 ∈ seen)) as [Hseen|_].
    + exfalso. apply (Hnew d0); [left|done].
    + f_equal. apply IH; [done|].
      intros d Hin. rewrite not_elem_of_union, not_elem_of_singleton.
      split; [|apply Hnew; by right].
      intros Heq. apply (inj doc_key) in Heq as ->. done.
Qed.

(** The pass over a concatenation: the second part is filtered against the
    keys of the first part too. *)
Lemma remove_duplicates_from_app seen docs1 docs2 :
  remove_duplicates_from seen (docs1 ++ docs2) =
  remove_duplicates_from seen docs1 ++
  remove_duplicates_from (keys_of docs1 ∪ seen) docs2.
Proof.
  revert seen. induction docs1 as [|d0 docs1 IH]; intros seen; simpl.
  - f_equal. unfold keys_of. simpl. set_solver.
  - destruct (decide (doc_key d0 ∈ seen)) as [Hseen|Hnew].
    + rewrite IH. do 2 f_equal. unfold keys_of. simpl. set_solver.
    + rewrite IH. simpl. do 3 f_equal. unfold keys_of. simpl. set_solver.
Qed.

Lemma remove_duplicates_fixed docs :
  NoDup docs → remove_duplicates docs = docs.
Proof.
  intros Hnd. apply remove_duplicates_from_fixed; [done|]. set_solver.
Qed.

Lemma remove_duplicates_twice docs :
  remove_duplicates (remove_duplicates docs) = remove_duplicates docs.
Proof. apply remove_duplicates_fixed, remove_duplicates_from_NoDup. Qed.

(** Appending documents that already occur changes nothing. *)
Lemma remove_duplicates_app_known docs extra :
  NoDup docs → (∀ d, d ∈ extra → d ∈ docs) →
  remove_duplicates (docs ++ extra) = docs.
Proof.
  intros Hnd Hknown. unfold remove_duplicates.
  rewrite remove_duplicates_from_app.
  rewrite remove_duplicates_from_fixed by (done || set_solver).
  rewrite <- (app_nil_r docs) at 3. f_equal.
  apply elem_of_nil_inv. intros d.
  rewrite remove_duplicates_from_elem, not_elem_of_union, elem_of_keys_of.
  intros [Hin [Hnot _]]. auto.
Qed.
End Deduplication.

(** *** First occurrences *)

Section FirstOccurrences.
Implicit Types (docs : list Document) (seen : gset (string * dict)).

Lemma keys_of_snoc docs d : keys_of (docs ++ [d]) = {[doc_key d]} ∪ keys_of docs.
Proof. unfold keys_of. rewrite fmap_app, list_to_set_app_L. simpl. set_solver. Qed.

(** The seen-set pass started on the keys of [before] keeps the documents
    that occur neither in [before] nor earlier in the list. *)
Lemma remove_duplicates_from_occurrences before docs :
  remove_duplicates_from (keys_of before) docs =
  omap id
    (imap (λ i d, if decide (d ∈ before ++ take i docs) then None else Some d)
       docs).
Proof.
  revert before. induction docs as [|d0 docs IH]; intros before; [done|].
  rewrite imap_cons. simpl. rewrite app_nil_r.
  assert (Hext : ∀ i d,
    (if decide (d ∈ (before ++ [d0]) ++ take i docs) then None else Some d) =
    ((λ i d, if decide (d ∈ before ++ take i (d0 :: docs))
             then None else Some d) ∘ S) i d).
  { intros i d. simpl. by rewrite <- app_assoc. }
  destruct (decide (doc_key d0 ∈ keys_of before)) as [Hseen|Hnew].
  - apply elem_of_keys_of in Hseen.
    rewrite decide_True by done. simpl.
    rewrite <- (imap_ext _ _ _ (λ i d _, Hext i d)), <- IH.
    f_equal. rewrite keys_of_snoc.
    apply (elem_of_keys_of d0) in Hseen. set_solver.
  - rewrite elem_of_keys_of in Hnew.
    rewrite decide_False by done. simpl. f_equal.
    rewrite <- (imap_ext _ _ _ (λ i d _, Hext i d)), <- IH.
    by rewrite keys_of_snoc.
Qed.

Lemma remove_duplicates_first_occurrences docs :
  remove_duplicates docs = first_occurrences docs.
Proof.
  exact (remove_duplicates_from_occurrences [] docs).
Qed.

(** A document that is new at its position is kept at its position. *)
Lemma remove_duplicates_from_middle seen docs1 d docs2 :
  doc_key d ∉ seen → d ∉ docs1 →
  remove_duplicates_from seen (docs1 ++ d :: docs2) =
  remove_duplicates_from seen docs1 ++
  d :: remove_duplicates_from ({[doc_key d]} ∪ (keys_of docs1 ∪ seen)) docs2.
Proof.
  intros Hseen Hin. rewrite remove_duplicates_from_app. simpl.
  rewrite decide_False; [done|].
  rewrite not_elem_of_union, elem_of_keys_of. tauto.
Qed.

Lemma remove_duplicates_order docs1 d1 docs2 d2 docs3 :
  d1 ∉ docs1 → d2 ∉ docs1 ++ d1 :: docs2 →
  ∃ out1 out2 out3,
    remove_duplicates (docs1 ++ d1 :: docs2 ++ d2 :: docs3) =
    out1 ++ d1 :: out2 ++ d2 :: out3.
Proof.
  intros H1 H2. unfold remove_duplicates.
  rewrite elem_of_app, elem_of_cons in H2.
  rewrite remove_duplicates_from_middle by (done || set_solver).
  rewrite remove_duplicates_from_middle.
  - eauto.
  - rewrite !not_elem_of_union, not_elem_of_singleton, elem_of_keys_of.
    repeat split; [|tauto|set_solver].
    intros Heq. apply (inj doc_key) in Heq. tauto.
  - tauto.
Qed.
End FirstOccurrences.

(** ** Running the monad *)

Section Runs.
Context {A B : Type}.
Implicit Types (m : M A) (f : A → M B) (s : State).

Lemma bind_ok m f s a s' : m s = (Ok a, s') → bind m f s = f a s'.
Proof. unfold bind. by intros ->. Qed.

Lemma bind_raise m f s e s' :
  m s = (Raise e, s') → bind m f s = (Raise e, s').
Proof. unfold bind. by intros ->. Qed.
End Runs.

Lemma next_loc_fresh s : heap s !! next_loc s = None.
Proof. unfold next_loc. apply (not_elem_of_dom (D := gset loc)). apply is_fresh. Qed.

Lemma next_loc_ne s l d : heap s !! l = Some d → l ≠ next_loc s.
Proof. intros Hl ->. by rewrite next_loc_fresh in Hl. Qed.

Lemma alloc_subseteq s d : heap s ⊆ <[next_loc s := d]> (heap s).
Proof. apply insert_subseteq, next_loc_fresh. Qed.

Section DictRuns.
Implicit Types (s : State) (l : loc) (d : dict).

Lemma read_dict_run s l d : heap s !! l = Some d → read_dict l s = (Ok d, s).
Proof. unfold read_dict. by intros ->. Qed.

Lemma read_dict_invalid s l :
  heap s !! l = None → read_dict l s = (Raise InvalidReference, s).
Proof. unfold read_dict. by intros ->. Qed.

Lemma deepcopy_run s l d :
  heap s !! l = Some d →
  deepcopy l s = (Ok (next_loc s), mkState (<[next_loc s := d]> (heap s)) (log s)).
Proof.
  intros Hl. unfold deepcopy. by rewrite (bind_ok _ _ _ _ _ (read_dict_run _ _ _ Hl)).
Qed.

Lemma dict_contains_run s l d key :
  heap s !! l = Some d →
  dict_contains l key s = (Ok (bool_decide (is_Some (d !! key))), s).
Proof.
  intros Hl. unfold dict_contains.
  by rewrite (bind_ok _ _ _ _ _ (read_dict_run _ _ _ Hl)).
Qed.

Lemma dict_contains_invalid s l key :
  heap s !! l = None → dict_contains l key s = (Raise InvalidReference, s).
Proof.
  intros Hl. unfold dict_contains.
  by rewrite (bind_raise _ _ _ _ _ (read_dict_invalid _ _ Hl)).
Qed.

Lemma dict_set_run s l d key value :
  heap s !! l = Some d →
  dict_set l key value s =
  (Ok tt, mkState (<[l := <[key := value]> d]> (heap s)) (log s)).
Proof.
  intros Hl. unfold dict_set.
  by rewrite (bind_ok _ _ _ _ _ (read_dict_run _ _ _ Hl)).
Qed.

Lemma dict_len_run s l d :
  heap s !! l = Some d → dict_len l s = (Ok (size d), s).
Proof.
  intros Hl. unfold dict_len.
  by rewrite (bind_ok _ _ _ _ _ (read_dict_run _ _ _ Hl)).
Qed.

(** The guarded deletion [if key in d: del d[key]], followed by the rest of
    the function. *)
Lemma guarded_del_run {B} s l d key (rest : unit → M B) :
  heap s !! l = Some d →
  (has <- dict_contains l key ;;
   x <- (if has : bool then dict_del l key else ret tt) ;;
   rest x) s =
  rest tt (mkState (<[l := delete key d]> (heap s)) (log s)).
Proof.
  intros Hl. rewrite (bind_ok _ _ _ _ _ (dict_contains_run _ _ _ key Hl)).
  destruct s as [h lg]. simpl in *.
  destruct (d !! key) as [v|] eqn:Hkey.
  - rewrite bool_decide_true by eauto.
    apply bind_ok. unfold dict_del.
    rewrite (bind_ok _ _ _ d _ (read_dict_run (mkState h lg) l d Hl)).
    by rewrite Hkey.
  - rewrite bool_decide_false by (by intros [? ?]).
    rewrite (delete_id d key Hkey), (insert_id h l d Hl).
    by apply bind_ok.
Qed.
End DictRuns.

(** ** Filter preparation *)

Lemma remove_member_id_run s l d :
  heap s !! l = Some d →
  remove_member_id l s =
  (Ok (next_loc s),
   mkState (<[next_loc s := delete "member_id" d]> (heap s)) (log s)).
Proof.
  intros Hl. unfold remove_member_id.
  rewrite (bind_ok _ _ _ _ _ (deepcopy_run _ _ _ Hl)).
  set (s1 := mkState (<[next_loc s := d]> (heap s)) (log s)).
  assert (H1 : heap s1 !! next_loc s = Some d) by apply lookup_insert_eq.
  rewrite (guarded_del_run s1 _ _ "member_id" _ H1).
  unfold ret. simpl. by rewrite insert_insert_eq.
Qed.

Lemma snapshot_run s metadata d :
  scope_contents (heap s) metadata = Some d →
  snapshot metadata s = (Ok (scope_of (heap s) metadata), s).
Proof.
  destruct metadata as [l|]; simpl; [|done].
  intros Hl. rewrite (bind_ok _ _ _ _ _ (read_dict_run _ _ _ Hl)).
  by rewrite Hl.
Qed.

Lemma prepare_filter_run s metadata d :
  scope_contents (heap s) metadata = Some d →
  ∃ s', prepare_filter metadata s = (Ok (translate (delete "member_id" d)), s')
        ∧ heap s ⊆ heap s' ∧ log s' = log s.
Proof.
  intros Hd. unfold prepare_filter.
  assert (∃ l s1, (match metadata with
                   | Some l => ret l
                   | None => new_dict ∅
                   end) s = (Ok l, s1)
                  ∧ heap s1 !! l = Some d ∧ heap s ⊆ heap s1 ∧ log s1 = log s)
    as (l & s1 & Hfirst & Hl & Hsub & Hlog).
  { destruct metadata as [l|]; simpl in Hd.
    - by exists l, s.
    - injection Hd as <-. eexists _, _. split; [reflexivity|]. simpl.
      split; [apply lookup_insert_eq|]. split; [apply alloc_subseteq|done]. }
  rewrite (bind_ok _ _ _ _ _ Hfirst).
  rewrite (bind_ok _ _ _ _ _ (remove_member_id_run _ _ _ Hl)).
  set (kept := delete "member_id" d).
  set (s2 := mkState (<[next_loc s1 := kept]> (heap s1)) (log s1)).
  assert (H2 : heap s2 !! next_loc s1 = Some kept) by apply lookup_insert_eq.
  rewrite (bind_ok _ _ _ _ _ (dict_len_run _ _ _ H2)).
  rewrite (bind_ok _ _ _ _ _ (read_dict_run _ _ _ H2)).
  exists s2. split; [|split].
  - unfold translate. by destruct (decide (1 < size kept)).
  - etrans; [exact Hsub|apply alloc_subseteq].
  - done.
Qed.

(** ** Single-query retrieval *)

Lemma semantic_run s store question metadata d :
  scope_contents (heap s) metadata = Some d →
  ∃ s', semantic_get_related_docs_from_store store question metadata s =
          (retrieval_result store question, s')
        ∧ heap s ⊆ heap s'
        ∧ log s' = log s ++ EvRetrieve question (scope_of (heap s) metadata)
                            :: store_requests store question.
Proof.
  intros Hd. unfold semantic_get_related_docs_from_store.
  rewrite (bind_ok _ _ _ _ _ (snapshot_run _ _ _ Hd)).
  set (entry := EvRetrieve question (scope_of (heap s) metadata)).
  rewrite (bind_ok (emit entry) _ s tt _ eq_refl).
  destruct (prepare_filter_run (mkState (heap s) (log s ++ [entry])) metadata d Hd)
    as (s1 & Hprep & Hsub & Hlog).
  simpl in Hsub, Hlog.
  rewrite (bind_ok _ _ _ _ _ Hprep).
  unfold call_similarity, call_mmr, emit, bind, ret, retrieval_result,
    store_requests.
  destruct (similarity_search_with_score store question 50 None) as [ss|e].
  - destruct (max_marginal_relevance_search store question 1 (1 # 2)%Q None)
      as [mm|e]; eexists; (split; [reflexivity|]); simpl;
      (split; [done|]); rewrite Hlog, <- !app_assoc; done.
  - eexists. split; [reflexivity|]. simpl. split; [done|].
    by rewrite Hlog, <- app_assoc.
Qed.

Lemma semantic_invalid s store question l :
  heap s !! l = None →
  semantic_get_related_docs_from_store store question (Some l) s =
  (Raise InvalidReference, s).
Proof.
  intros Hl. unfold semantic_get_related_docs_from_store, snapshot.
  apply bind_raise, bind_raise. by apply read_dict_invalid.
Qed.

Lemma semantic_frame s store question metadata :
  heap s ⊆ heap (semantic_get_related_docs_from_store store question metadata s).2.
Proof.
  destruct (scope_contents (heap s) metadata) as [d|] eqn:Hd.
  - destruct (semantic_run s store question metadata d Hd) as (s' & -> & Hsub & _).
    done.
  - destruct metadata as [l|]; [|done]. simpl in Hd.
    by rewrite semantic_invalid.
Qed.

(** Every list that a retrieval returns is free of duplicates. *)
Lemma semantic_returns_deduplicated s store question metadata docs s' :
  semantic_get_related_docs_from_store store question metadata s = (Ok docs, s') →
  remove_duplicates docs = docs.
Proof.
  destruct (scope_contents (heap s) metadata) as [d|] eqn:Hd.
  - destruct (semantic_run s store question metadata d Hd) as (s1 & -> & _).
    unfold retrieval_result. intros Heq.
    destruct (similarity_search_with_score store question 50 None); [|done].
    destruct (max_marginal_relevance_search store question 1 (1 # 2)%Q None);
      [|done].
    injection Heq as <- _. apply remove_duplicates_twice.
  - destruct metadata as [l|]; [|done]. simpl in Hd.
    by rewrite semantic_invalid.
Qed.

(** ** Multi-query aggregation *)

Lemma get_related_frame self s store question metadata :
  heap s ⊆ heap (get_related_docs_from_store self store question metadata s).2.
Proof. destruct self. apply semantic_frame. Qed.

Lemma extend_for_questions_frame self store questions metadata documents s :
  heap s ⊆
  heap (extend_for_questions self store questions metadata documents s).2.
Proof.
  revert documents s. induction questions as [|question rest IH];
    intros documents s; simpl; [done|].
  pose proof (get_related_frame self s store question metadata) as Hsub.
  unfold bind.
  destruct (get_related_docs_from_store self store question metadata s)
    as [[found|e] s1]; simpl in *; [|done].
  etrans; [exact Hsub|apply IH].
Qed.

Lemma get_multiple_frame self store questions metadata s :
  heap s ⊆
  heap (get_multiple_related_docs_from_store self store questions metadata s).2.
Proof.
  unfold get_multiple_related_docs_from_store, bind.
  pose proof (extend_for_questions_frame self store questions metadata [] s)
    as Hsub.
  by destruct (extend_for_questions self store questions metadata [] s)
    as [[documents|e] s1].
Qed.

(** ** Routed retrieval *)

Lemma uhg_default_run s store question :
  ∃ s', uhg_default store question s = (retrieval_result store question, s')
        ∧ heap s ⊆ heap s'
        ∧ log s' = log s ++ EvRetrieve question (Some kc_only)
                            :: store_requests store question.
Proof.
  unfold uhg_default.
  set (s0 := mkState (<[next_loc s := kc_only]> (heap s)) (log s)).
  rewrite (bind_ok (new_dict kc_only) _ s (next_loc s) s0 eq_refl).
  assert (H0 : heap s0 !! next_loc s = Some kc_only) by apply lookup_insert_eq.
  destruct (semantic_run s0 store question (Some (next_loc s)) kc_only H0)
    as (s' & -> & Hsub & Hlog).
  exists s'. split; [done|]. split.
  - etrans; [apply alloc_subseteq|exact Hsub].
  - rewrite Hlog. simpl. by rewrite lookup_insert_eq.
Qed.

Lemma uhg_fan_out_run s store question l m :
  heap s !! l = Some m →
  ∃ s', uhg_fan_out store question l s = (fan_out_result store question, s')
        ∧ heap s ⊆ heap s'
        ∧ log s' = log s ++ fan_out_events store question m.
Proof.
  intros Hl. unfold uhg_fan_out.
  (* b360_metadata *)
  rewrite (bind_ok _ _ _ _ _ (deepcopy_run _ _ _ Hl)).
  set (l1 := next_loc s).
  set (s1 := mkState (<[l1 := m]> (heap s)) (log s)).
  assert (H1 : heap s1 !! l1 = Some m) by apply lookup_insert_eq.
  rewrite (bind_ok _ _ _ _ _ (dict_set_run _ _ _ "data_source" "b360" H1)).
  simpl. rewrite insert_insert_eq. fold (b360_scope m).
  set (s2 := mkState (<[l1 := b360_scope m]> (heap s)) (log s)).
  assert (Hsub2 : heap s ⊆ heap s2) by apply alloc_subseteq.
  (* kc_metadata *)
  assert (Hl2 : heap s2 !! l = Some m) by exact (lookup_weaken _ _ _ _ Hl Hsub2).
  rewrite (bind_ok _ _ _ _ _ (deepcopy_run _ _ _ Hl2)).
  set (l2 := next_loc s2).
  set (s3 := mkState (<[l2 := m]> (heap s2)) (log s2)).
  assert (H3 : heap s3 !! l2 = Some m) by apply lookup_insert_eq.
  rewrite (bind_ok _ _ _ _ _ (dict_set_run _ _ _ "data_source" "kc" H3)).
  simpl. rewrite insert_insert_eq.
  set (s4 := mkState (<[l2 := <["data_source" := "kc"]> m]> (heap s2)) (log s)).
  assert (H4 : heap s4 !! l2 = Some (<["data_source" := "kc"]> m))
    by apply lookup_insert_eq.
  rewrite (guarded_del_run s4 _ _ "set_number" _ H4).
  simpl. rewrite insert_insert_eq.
  fold (kc_scope m).
  set (s5 := mkState (<[l2 := kc_scope m]> (heap s2)) (log s)).
  assert (Hsub5 : heap s2 ⊆ heap s5) by apply (alloc_subseteq s2).
  assert (Ha : heap s5 !! l1 = Some (b360_scope m)).
  { apply (lookup_weaken _ _ _ _ (lookup_insert_eq _ _ _) Hsub5). }
  assert (Hb : heap s5 !! l2 = Some (kc_scope m)) by apply lookup_insert_eq.
  (* the loop over [b360_metadata; kc_metadata] *)
  destruct (semantic_run s5 store question (Some l1) _ Ha)
    as (s6 & Hrun6 & Hsub6 & Hlog6).
  unfold scope_of in Hlog6. rewrite Ha in Hlog6.
  change (mkState (<[l2 := kc_scope m]> (<[l1 := b360_scope m]> (heap s)))
            (log s)) with s5.
  unfold fan_out_result, fan_out_events.
  destruct (retrieval_result store question) as [found|e] eqn:Hres.
  - assert (Hb6 : heap s6 !! l2 = Some (kc_scope m))
      by exact (lookup_weaken _ _ _ _ Hb Hsub6).
    destruct (semantic_run s6 store question (Some l2) _ Hb6)
      as (s7 & Hrun7 & Hsub7 & Hlog7).
    unfold scope_of in Hlog7. rewrite Hb6 in Hlog7. rewrite Hres in Hrun7.
    rewrite (bind_ok _ _ _ _ _ Hrun6), (bind_ok _ _ _ _ _ Hrun7).
    exists s7. split; [done|]. split.
    + repeat (etrans; [eassumption|]). done.
    + rewrite Hlog7, Hlog6. simpl. by rewrite <- app_assoc.
  - rewrite (bind_raise _ _ _ _ _ Hrun6).
    exists s6. split; [done|]. split.
    + repeat (etrans; [eassumption|]). done.
    + rewrite Hlog6. simpl. by rewrite app_nil_r.
Qed.

Lemma uhg_run_absent s store question :
  get_related_docs_from_store_uhg store question None s =
  uhg_default store question s.
Proof. done. Qed.

Lemma uhg_run_lacking s store question l m :
  heap s !! l = Some m → m !! "set_number" = None →
  get_related_docs_from_store_uhg store question (Some l) s =
  uhg_default store question s.
Proof.
  intros Hl Hkey. unfold get_related_docs_from_store_uhg.
  rewrite (bind_ok _ _ _ _ _ (dict_contains_run _ _ _ "set_number" Hl)).
  rewrite Hkey, bool_decide_false; [done|]. by intros [? ?].
Qed.

Lemma uhg_run_scoped s store question l m :
  heap s !! l = Some m → is_Some (m !! "set_number") →
  get_related_docs_from_store_uhg store question (Some l) s =
  uhg_fan_out store question l s.
Proof.
  intros Hl Hkey. unfold get_related_docs_from_store_uhg.
  rewrite (bind_ok _ _ _ _ _ (dict_contains_run _ _ _ "set_number" Hl)).
  by rewrite bool_decide_true.
Qed.

Lemma uhg_run_invalid s store question l :
  heap s !! l = None →
  get_related_docs_from_store_uhg store question (Some l) s =
  (Raise InvalidReference, s).
Proof.
  intros Hl. unfold get_related_docs_from_store_uhg.
  by rewrite (bind_raise _ _ _ _ _ (dict_contains_invalid _ _ "set_number" Hl)).
Qed.

Lemma uhg_frame s store question metadata :
  heap s ⊆ heap (get_related_docs_from_store_uhg store question metadata s).2.
Proof.
  destruct metadata as [l|].
  - destruct (heap s !! l) as [m|] eqn:Hl.
    + destruct (m !! "set_number") as [v|] eqn:Hkey.
      * rewrite (uhg_run_scoped _ _ _ _ _ Hl) by eauto.
        by destruct (uhg_fan_out_run s store question l m Hl) as (s' & -> & ? & _).
      * rewrite (uhg_run_lacking _ _ _ _ _ Hl Hkey).
        by destruct (uhg_default_run s store question) as (s' & -> & ? & _).
    + by rewrite uhg_run_invalid.
  - rewrite uhg_run_absent.
    by destruct (uhg_default_run s store question) as (s' & -> & ? & _).
Qed.

Lemma retrievals_entry question scope events :
  retrievals (EvRetrieve question scope :: events) =
  (question, scope) :: retrievals events.
Proof. done. Qed.

Lemma retrievals_store_requests store question :
  retrievals (store_requests store question) = [].
Proof.
  unfold store_requests.
  by destruct (similarity_search_with_score store question 50 None).
Qed.

Lemma store_requests_unfiltered store question :
  Forall (λ e, request_filter e = None) (store_requests store question).
Proof.
  unfold store_requests.
  destruct (similarity_search_with_score store question 50 None);
    repeat constructor.
Qed.

Lemma elem_of_filter_keys_translate key kept :
  key ∈ filter_keys (translate kept) ↔ is_Some (kept !! key).
Proof.
  assert (key ∈ (map_to_list kept).*1 ↔ is_Some (kept !! key)) as Hkeys.
  { rewrite list_elem_of_fmap. split.
    - intros ([k v] & -> & Hin). apply elem_of_map_to_list in Hin. eauto.
    - intros [v Hv]. exists (key, v). split; [done|].
      by apply elem_of_map_to_list. }
  unfold translate. by destruct (decide (1 < size kept)).
Qed.

(** * Properties of the specification *)

(** C1. Routed retrieval: when the scope is absent, empty or has no
    "set_number", exactly one single-query retrieval is entered, on a scope
    that holds just "data_source" = "kc"; when the scope has "set_number" and
    the store answers, exactly two are entered, first on the scope with
    "data_source" set to "b360" (and "set_number" kept), then on the scope with
    "data_source" set to "kc" and "set_number" removed. *)
Theorem uhg_routing store question metadata s :
  let s' := (get_related_docs_from_store_uhg store question metadata s).2 in
  (∀ m, scope_contents (heap s) metadata = Some m →
        m !! "set_number" = None →
        ∃ events, log s' = log s ++ events
          ∧ retrievals events = [(question, Some {[ "data_source" := "kc" ]})])
  ∧ (∀ l m ss_docs mmr_docs,
        metadata = Some l → heap s !! l = Some m →
        is_Some (m !! "set_number") →
        similarity_search_with_score store question 50 None = Ok ss_docs →
        max_marginal_relevance_search store question 1 (1 # 2)%Q None
          = Ok mmr_docs →
        ∃ events, log s' = log s ++ events
          ∧ retrievals events =
              [(question, Some (<["data_source" := "b360"]> m));
               (question,
                Some (delete "set_number" (<["data_source" := "kc"]> m)))]
          ∧ <["data_source" := "b360"]> m !! "set_number" = m !! "set_number").
Proof.
  split.
  - intros m Hm Hkey.
    assert (get_related_docs_from_store_uhg store question metadata s =
            uhg_default store question s) as ->.
    { destruct metadata as [l|]; [|done]. by apply (uhg_run_lacking _ _ _ _ m). }
    destruct (uhg_default_run s store question) as (s' & -> & _ & Hlog).
    eexists. split; [exact Hlog|].
    by rewrite retrievals_entry, retrievals_store_requests.
  - intros l m ss_docs mmr_docs -> Hl Hkey Hss Hmm.
    rewrite (uhg_run_scoped _ _ _ _ _ Hl Hkey).
    destruct (uhg_fan_out_run s store question l m Hl) as (s' & -> & _ & Hlog).
    eexists. split; [exact Hlog|]. split; [|by rewrite lookup_insert_ne].
    unfold fan_out_events, retrieval_result, store_requests.
    by rewrite Hss, Hmm.
Qed.

Lemma uhg_routing_witness :
  (scope_contents (heap example_state) None = Some ∅
   ∧ (∅ : dict) !! "set_number" = None
   ∧ ∃ events,
       log (get_related_docs_from_store_uhg example_store "q" None
              example_state).2 = log example_state ++ events
       ∧ retrievals events = [("q", Some {[ "data_source" := "kc" ]})])
  ∧ (heap example_state !! 1%positive = Some example_scope
     ∧ is_Some (example_scope !! "set_number")
     ∧ ∃ events,
         log (get_related_docs_from_store_uhg example_store "q"
                (Some 1%positive) example_state).2 = log example_state ++ events
         ∧ retrievals events =
             [("q", Some (<["data_source" := "b360"]> example_scope));
              ("q", Some (delete "set_number"
                            (<["data_source" := "kc"]> example_scope)))]
         ∧ <["data_source" := "b360"]> example_scope !! "set_number"
           = example_scope !! "set_number").
Proof.
  split.
  - split; [reflexivity|]. split; [reflexivity|].
    exact (proj1 (uhg_routing example_store "q" None example_state)
             ∅ eq_refl eq_refl).
  - split; [reflexivity|].
    assert (is_Some (example_scope !! "set_number")) as Hkey
      by (exists "abc"; reflexivity).
    split; [exact Hkey|].
    exact (proj2 (uhg_routing example_store "q" (Some 1%positive) example_state)
             1%positive example_scope example_hits [letter_doc 3]
             eq_refl eq_refl Hkey eq_refl eq_refl).
Defined.

(** C2. Single-query retrieval: one similarity request for the top 50, the
    first 20 hits kept in ranked order, one diversity request for 1 result
    with trade-off 1/2, similarity results then the diversity result,
    deduplicated. When the store gives 50 hits whose first 20 are distinct and
    the diversity hit is one of them, the answer is those 20 in ranked
    order. *)
Theorem single_query_retrieval store question metadata s d ss_docs mmr_docs :
  scope_contents (heap s) metadata = Some d →
  similarity_search_with_score store question 50 None = Ok ss_docs →
  max_marginal_relevance_search store question 1 (1 # 2)%Q None = Ok mmr_docs →
  let ranked := (take 20 ss_docs).*1 in
  ∃ s',
    get_related_docs_from_store SemanticDocumentRetriever store question
      metadata s = (Ok (remove_duplicates (ranked ++ mmr_docs)), s')
    ∧ log s' = log s ++ [EvRetrieve question (scope_of (heap s) metadata);
                         EvSimilarity question 50 None;
                         EvMMR question 1 (1 # 2)%Q None]
    ∧ (length ss_docs = 50 → NoDup ranked →
       (∃ hit, mmr_docs = [hit] ∧ hit ∈ ranked) →
       remove_duplicates (ranked ++ mmr_docs) = ranked ∧ length ranked = 20).
Proof.
  intros Hd Hss Hmm ranked. simpl.
  destruct (semantic_run s store question metadata d Hd)
    as (s' & Hrun & _ & Hlog).
  exists s'. split; [|split].
  - rewrite Hrun. unfold retrieval_result. by rewrite Hss, Hmm.
  - rewrite Hlog. unfold store_requests. by rewrite Hss.
  - intros Hlen Hnd (hit & -> & Hin). split.
    + apply remove_duplicates_app_known; [done|].
      intros d' Hd'. by apply list_elem_of_singleton in Hd' as ->.
    + unfold ranked. rewrite length_fmap, length_take. lia.
Qed.

Lemma single_query_retrieval_witness :
  scope_contents (heap example_state) (Some 1%positive) = Some example_scope
  ∧ length example_hits = 50
  ∧ NoDup (take 20 example_hits).*1
  ∧ letter_doc 3 ∈ (take 20 example_hits).*1
  ∧ (get_related_docs_from_store SemanticDocumentRetriever example_store "q"
       (Some 1%positive) example_state).1 = Ok (take 20 example_hits).*1.
Proof.
  assert (NoDup (take 20 example_hits).*1) as Hnd
    by (apply (bool_decide_unpack _); vm_compute; exact I).
  assert (letter_doc 3 ∈ (take 20 example_hits).*1) as Hin
    by (apply (bool_decide_unpack _); vm_compute; exact I).
  split; [reflexivity|]. split; [reflexivity|]. split; [exact Hnd|].
  split; [exact Hin|].
  destruct (single_query_retrieval example_store "q" (Some 1%positive)
              example_state example_scope example_hits [letter_doc 3]
              eq_refl eq_refl eq_refl) as (s' & Hrun & _ & Hsame).
  rewrite Hrun. apply (f_equal Ok).
  apply Hsame; [reflexivity|exact Hnd|]. exists (letter_doc 3). by split.
Defined.

(** C3 (the code departs from the claim). With a scope that has "set_number"
    and a store holding one document, the routed retrieval returns that
    document twice: the two partial results are concatenated and returned
    as they are. *)
Theorem uhg_returns_duplicates :
  (get_related_docs_from_store_uhg single_store "q" (Some 1%positive)
     scoped_state).1 = Ok [letter_doc 0; letter_doc 0]
  ∧ ¬ NoDup [letter_doc 0; letter_doc 0]
  ∧ (get_multiple_related_docs_from_store SemanticDocumentRetriever
       single_store ["q"; "q"] (Some 1%positive) scoped_state).1
    = Ok [letter_doc 0].
Proof.
  split; [vm_compute; reflexivity|]. split; [|vm_compute; reflexivity].
  rewrite NoDup_cons, elem_of_cons. tauto.
Qed.

(** In the fan-out the result is the result of one retrieval, twice. *)
Lemma uhg_fan_out_doubles store question l m s :
  heap s !! l = Some m → is_Some (m !! "set_number") →
  (get_related_docs_from_store_uhg store question (Some l) s).1 =
  match retrieval_result store question with
  | Ok found => Ok (found ++ found)
  | Raise e => Raise e
  end.
Proof.
  intros Hl Hkey. rewrite (uhg_run_scoped _ _ _ _ _ Hl Hkey).
  by destruct (uhg_fan_out_run s store question l m Hl) as (s' & -> & _).
Qed.

(** When the store raises during the first retrieval of the fan-out, the
    exception propagates and the second retrieval is not entered. *)
Lemma uhg_fan_out_aborts store question l m s e :
  heap s !! l = Some m → is_Some (m !! "set_number") →
  retrieval_result store question = Raise e →
  let run := get_related_docs_from_store_uhg store question (Some l) s in
  run.1 = Raise e
  ∧ ∃ events, log run.2 = log s ++ events
      ∧ retrievals events = [(question, Some (b360_scope m))].
Proof.
  intros Hl Hkey Hres run. unfold run.
  rewrite (uhg_run_scoped _ _ _ _ _ Hl Hkey).
  destruct (uhg_fan_out_run s store question l m Hl) as (s' & -> & _ & Hlog).
  unfold fan_out_result, fan_out_events in *. rewrite Hres in *.
  split; [done|]. eexists. split; [exact Hlog|].
  by rewrite app_nil_r, retrievals_entry, retrievals_store_requests.
Qed.

(** C4. The answer of the single-query retrieval does not depend on the
    metadata scope: on any two scopes the same list (or the same error) comes
    back and the same requests go to the store, none of them with a filter. *)
Theorem retrieval_ignores_scope self store question metadata1 metadata2
    s1 s2 d1 d2 :
  scope_contents (heap s1) metadata1 = Some d1 →
  scope_contents (heap s2) metadata2 = Some d2 →
  let run1 := get_related_docs_from_store self store question metadata1 s1 in
  let run2 := get_related_docs_from_store self store question metadata2 s2 in
  run1.1 = run2.1
  ∧ ∃ requests,
      log run1.2 = log s1 ++ EvRetrieve question (scope_of (heap s1) metadata1)
                             :: requests
      ∧ log run2.2 = log s2 ++ EvRetrieve question (scope_of (heap s2) metadata2)
                               :: requests
      ∧ Forall (λ e, request_filter e = None) requests
      ∧ retrievals requests = [].
Proof.
  intros H1 H2. destruct self. simpl.
  destruct (semantic_run s1 store question metadata1 d1 H1)
    as (s1' & -> & _ & Hlog1).
  destruct (semantic_run s2 store question metadata2 d2 H2)
    as (s2' & -> & _ & Hlog2).
  split; [done|]. exists (store_requests store question).
  repeat split; try done.
  - apply store_requests_unfiltered.
  - apply retrievals_store_requests.
Qed.

Lemma retrieval_ignores_scope_witness :
  scope_contents (heap example_state) (Some 1%positive) = Some example_scope
  ∧ scope_contents (heap example_state) None = Some ∅
  ∧ (get_related_docs_from_store SemanticDocumentRetriever example_store "q"
       (Some 1%positive) example_state).1
    = (get_related_docs_from_store SemanticDocumentRetriever example_store "q"
         None example_state).1.
Proof.
  split; [reflexivity|]. split; [reflexivity|].
  exact (proj1 (retrieval_ignores_scope SemanticDocumentRetriever example_store
                  "q" (Some 1%positive) None example_state example_state
                  example_scope ∅ eq_refl eq_refl)).
Defined.

(** C5. Filter preparation: "member_id" is removed when present, so the
    prepared filter never constrains it; what remains is translated into the
    conjunctive form exactly when it has more than one key, and is passed
    through as it is otherwise (one key, or none). *)
Theorem prepare_filter_policy metadata s m :
  scope_contents (heap s) metadata = Some m →
  let kept := delete "member_id" m in
  ∃ flt s',
    prepare_filter metadata s = (Ok flt, s')
    ∧ kept !! "member_id" = None
    ∧ (∀ key, key ≠ "member_id" → kept !! key = m !! key)
    ∧ ("member_id" ∉ filter_keys flt)
    ∧ (1 < size kept → flt = convert_to_chroma_format kept)
    ∧ (size kept = 1 → flt = FPlain kept)
    ∧ ((size kept ≤ 1)%nat → flt = FPlain kept)
    ∧ (∀ l, metadata = Some l →
         ∃ l' s1, remove_member_id l s = (Ok l', s1)
                  ∧ l' ≠ l ∧ heap s1 !! l' = Some kept).
Proof.
  intros Hm kept.
  destruct (prepare_filter_run s metadata m Hm) as (s' & Hrun & _).
  exists (translate kept), s'. split; [exact Hrun|].
  split; [apply lookup_delete_eq|].
  split; [intros key Hne; by apply lookup_delete_ne|].
  split.
  { rewrite elem_of_filter_keys_translate. unfold kept.
    rewrite lookup_delete_eq. by intros [? ?]. }
  unfold translate.
  split; [intros Hsize; by rewrite decide_True|].
  split; [intros Hsize; rewrite decide_False; [done|lia]|].
  split; [intros Hsize; rewrite decide_False; [done|lia]|].
  intros l ->. simpl in Hm. eexists _, _.
  split; [exact (remove_member_id_run s l m Hm)|]. simpl.
  split; [|apply lookup_insert_eq].
  intros Heq. symmetry in Heq. by apply (next_loc_ne s l m Hm) in Heq.
Qed.

Lemma prepare_filter_policy_witness :
  scope_contents (heap example_state) (Some 1%positive) = Some example_scope
  ∧ size (delete "member_id" example_scope) = 1
  ∧ (prepare_filter (Some 1%positive) example_state).1
    = Ok (FPlain (delete "member_id" example_scope)).
Proof.
  split; [reflexivity|].
  assert (size (delete "member_id" example_scope) = 1) as Hsize by reflexivity.
  split; [exact Hsize|].
  destruct (prepare_filter_policy (Some 1%positive) example_state example_scope
              eq_refl) as (flt & s' & Hrun & _ & _ & _ & _ & Hone & _).
  rewrite Hrun. simpl. f_equal. exact (Hone Hsize).
Defined.

(** C6. No retrieval operation changes a metadata dictionary that exists
    when it is called, the caller's scope among them: after the single-query
    retrieval, the multi-query retrieval and the routed retrieval the
    dictionary holds the entries it held before. *)
Theorem retrievals_preserve_scope self store question questions metadata s l m :
  heap s !! l = Some m →
  heap (get_related_docs_from_store self store question metadata s).2 !! l
    = Some m
  ∧ heap (get_multiple_related_docs_from_store self store questions metadata
            s).2 !! l = Some m
  ∧ heap (get_related_docs_from_store_uhg store question metadata s).2 !! l
    = Some m.
Proof.
  intros Hl. repeat split; eapply lookup_weaken; try exact Hl.
  - apply get_related_frame.
  - apply get_multiple_frame.
  - apply uhg_frame.
Qed.

Lemma retrievals_preserve_scope_witness :
  heap example_state !! 1%positive = Some example_scope
  ∧ heap (get_related_docs_from_store SemanticDocumentRetriever example_store
            "q" (Some 1%positive) example_state).2 !! 1%positive
    = Some example_scope
  ∧ heap (get_multiple_related_docs_from_store SemanticDocumentRetriever
            example_store ["q"; "r"] (Some 1%positive) example_state).2
      !! 1%positive = Some example_scope
  ∧ heap (get_related_docs_from_store_uhg example_store "q" (Some 1%positive)
            example_state).2 !! 1%positive = Some example_scope.
Proof.
  split; [reflexivity|].
  exact (retrievals_preserve_scope SemanticDocumentRetriever example_store "q"
           ["q"; "r"] (Some 1%positive) example_state 1%positive example_scope
           eq_refl).
Defined.

(** C7. The multi-query retrieval on a batch of one question returns what the
    single-query retrieval returns for that question (and leaves the same
    state). *)
Theorem get_multiple_single self store question metadata s :
  get_multiple_related_docs_from_store self store [question] metadata s =
  get_related_docs_from_store self store question metadata s.
Proof.
  unfold get_multiple_related_docs_from_store. simpl. unfold bind.
  destruct (get_related_docs_from_store self store question metadata s)
    as [[found|e] s'] eqn:Hrun; [|done].
  unfold ret. simpl. f_equal. f_equal.
  destruct self. by apply semantic_returns_deduplicated in Hrun.
Qed.

(** C8. Deduplication is idempotent. *)
Theorem remove_duplicates_idempotent (docs : list Document) :
  remove_duplicates (remove_duplicates docs) = remove_duplicates docs.
Proof. apply remove_duplicates_twice. Qed.

(** C9. Deduplication keeps exactly the first occurrence of every
    (content, metadata) pair, in input order: the output has no two documents
    with the same pair, has the documents of the input, is the list of the
    documents that do not occur earlier in the input, and two documents that
    are each new at their position come out in the order they came in. *)
Theorem remove_duplicates_first_seen (docs : list Document) :
  NoDup (doc_key <$> remove_duplicates docs)
  ∧ (∀ d, d ∈ remove_duplicates docs ↔ d ∈ docs)
  ∧ remove_duplicates docs `sublist_of` docs
  ∧ remove_duplicates docs = first_occurrences docs
  ∧ (∀ docs1 d1 docs2 d2 docs3,
       docs = docs1 ++ d1 :: docs2 ++ d2 :: docs3 →
       d1 ∉ docs1 → d2 ∉ docs1 ++ d1 :: docs2 →
       ∃ out1 out2 out3,
         remove_duplicates docs = out1 ++ d1 :: out2 ++ d2 :: out3).
Proof.
  split; [|split; [|split; [|split]]].
  - apply (NoDup_fmap_2 doc_key), remove_duplicates_from_NoDup.
  - intros d. unfold remove_duplicates.
    rewrite remove_duplicates_from_elem. set_solver.
  - apply remove_duplicates_from_sublist.
  - apply remove_duplicates_first_occurrences.
  - intros docs1 d1 docs2 d2 docs3 -> H1 H2.
    by apply remove_duplicates_order.
Qed.

Lemma remove_duplicates_first_seen_witness :
  (letter_doc 0 ∉ [letter_doc 2])
  ∧ (letter_doc 1 ∉
     [letter_doc 2] ++ letter_doc 0 :: [letter_doc 2; letter_doc 0])
  ∧ ∃ out1 out2 out3,
      remove_duplicates
        ([letter_doc 2] ++ letter_doc 0 :: [letter_doc 2; letter_doc 0]
           ++ letter_doc 1 :: [letter_doc 1])
      = out1 ++ letter_doc 0 :: out2 ++ letter_doc 1 :: out3.
Proof.
  assert (letter_doc 0 ∉ [letter_doc 2]) as H1
    by (apply (bool_decide_unpack _); vm_compute; exact I).
  assert (letter_doc 1 ∉
          [letter_doc 2] ++ letter_doc 0 :: [letter_doc 2; letter_doc 0]) as H2
    by (apply (bool_decide_unpack _); vm_compute; exact I).
  split; [exact H1|]. split; [exact H2|].
  destruct (remove_duplicates_first_seen
              ([letter_doc 2] ++ letter_doc 0 :: [letter_doc 2; letter_doc 0]
                 ++ letter_doc 1 :: [letter_doc 1]))
    as (_ & _ & _ & _ & Horder).
  exact (Horder [letter_doc 2] (letter_doc 0) [letter_doc 2; letter_doc 0]
           (letter_doc 1) [letter_doc 1] eq_refl H1 H2).
Defined.

(** C10. The provider returns the semantic retriever for the name "semantic"
    and raises for every other name, returning no retriever. *)
Theorem provider_names (name : string) :
  (name = "semantic" →
   DocumentRetrieverProvider name = Ok SemanticDocumentRetriever)
  ∧ (name ≠ "semantic" →
     DocumentRetrieverProvider name
     = Raise (ValueError "Not implemented document retriver"))
  ∧ ((∃ retriever, DocumentRetrieverProvider name = Ok retriever)
     ↔ name = "semantic").
Proof.
  unfold DocumentRetrieverProvider.
  destruct (decide (name = "semantic")) as [->|Hne].
  - repeat split; eauto. done.
  - repeat split; try done. by intros [? ?].
Qed.

Lemma provider_names_witness :
  ("semantic" = "semantic"
   ∧ DocumentRetrieverProvider "semantic" = Ok SemanticDocumentRetriever)
  ∧ ("keyword" ≠ "semantic"
     ∧ DocumentRetrieverProvider "keyword"
       = Raise (ValueError "Not implemented document retriver")).
Proof.
  split.
  - split; [reflexivity|].
    exact (proj1 (provider_names "semantic") eq_refl).
  - assert ("keyword" ≠ "semantic") as Hne by discriminate.
    split; [exact Hne|].
    exact (proj1 (proj2 (provider_names "keyword")) Hne).
Defined.

(** * Further properties of document_retriever.py *)

Lemma scope_weaken h h' metadata d :
  h ⊆ h' → scope_contents h metadata = Some d →
  scope_contents h' metadata = Some d ∧ scope_of h' metadata = scope_of h metadata.
Proof.
  intros Hsub Hd. destruct metadata as [l|]; simpl in *; [|done].
  rewrite Hd. split; by apply (lookup_weaken h h').
Qed.

Lemma get_related_run self s store question metadata d :
  scope_contents (heap s) metadata = Some d →
  ∃ s', get_related_docs_from_store self store question metadata s =
          (retrieval_result store question, s')
        ∧ heap s ⊆ heap s'
        ∧ log s' = log s ++ EvRetrieve question (scope_of (heap s) metadata)
                            :: store_requests store question.
Proof. destruct self. apply semantic_run. Qed.

Lemma extend_for_questions_run self store questions metadata documents s d :
  scope_contents (heap s) metadata = Some d →
  ∃ s', extend_for_questions self store questions metadata documents s =
          (match batch_results store questions with
           | Ok more => Ok (documents ++ more)
           | Raise e => Raise e
           end, s')
        ∧ heap s ⊆ heap s'
        ∧ log s' = log s ++
                   batch_events store (scope_of (heap s) metadata) questions.
Proof.
  revert documents s. induction questions as [|question rest IH];
    intros documents s Hd; simpl.
  - exists s. by rewrite !app_nil_r.
  - destruct (get_related_run self s store question metadata d Hd)
      as (s1 & Hrun & Hsub & Hlog).
    destruct (retrieval_result store question) as [found|e].
    + rewrite (bind_ok _ _ _ _ _ Hrun).
      destruct (scope_weaken _ _ _ _ Hsub Hd) as [Hd1 Hscope].
      destruct (IH (documents ++ found) s1 Hd1) as (s2 & -> & Hsub2 & Hlog2).
      exists s2. split; [|split].
      * destruct (batch_results store rest); [|done]. by rewrite app_assoc.
      * by etrans.
      * rewrite Hlog2, Hlog, Hscope. by rewrite <- app_assoc.
    + rewrite (bind_raise _ _ _ _ _ Hrun). exists s1.
      split; [done|]. split; [done|]. by rewrite Hlog, app_nil_r.
Qed.

Lemma get_multiple_run self store questions metadata s d :
  scope_contents (heap s) metadata = Some d →
  ∃ s', get_multiple_related_docs_from_store self store questions metadata s =
          (match batch_results store questions with
           | Ok found => Ok (remove_duplicates found)
           | Raise e => Raise e
           end, s')
        ∧ heap s ⊆ heap s'
        ∧ log s' = log s ++
                   batch_events store (scope_of (heap s) metadata) questions.
Proof.
  intros Hd. unfold get_multiple_related_docs_from_store.
  destruct (extend_for_questions_run self store questions metadata [] s d Hd)
    as (s' & Hrun & Hsub & Hlog).
  exists s'. split; [|done].
  destruct (batch_results store questions) as [found|e].
  - by rewrite (bind_ok _ _ _ _ _ Hrun).
  - by rewrite (bind_raise _ _ _ _ _ Hrun).
Qed.

(** What one retrieval returns, read off a run. *)
Lemma get_related_result self s store question metadata d :
  scope_contents (heap s) metadata = Some d →
  (get_related_docs_from_store self store question metadata s).1 =
  retrieval_result store question.
Proof.
  intros Hd.
  by destruct (get_related_run self s store question metadata d Hd)
    as (s' & -> & _).
Qed.

Lemma batch_results_all store questions results :
  Forall2 (λ q found, retrieval_result store q = Ok found) questions results →
  batch_results store questions = Ok (concat results).
Proof.
  induction 1 as [|q found questions results Hq _ IH]; simpl; [done|].
  by rewrite Hq, IH.
Qed.

Lemma retrievals_app events1 events2 :
  retrievals (events1 ++ events2) = retrievals events1 ++ retrievals events2.
Proof. apply omap_app. Qed.

Lemma batch_events_all store scope questions :
  Forall (λ q, ∃ found, retrieval_result store q = Ok found) questions →
  retrievals (batch_events store scope questions) = (λ q, (q, scope)) <$> questions.
Proof.
  induction 1 as [|q questions [found Hq] _ IH]; [done|].
  cbn [batch_events]. rewrite Hq, retrievals_entry, retrievals_app.
  by rewrite retrievals_store_requests, IH.
Qed.

(** X1. A batch whose retrievals all return gives the deduplicated
    concatenation, in batch order, of what the single-query retrieval
    returns for each question, and enters one retrieval per question, in
    batch order, all on the caller's scope. In particular an empty batch
    gives the empty list. *)
Theorem get_multiple_concatenates self store questions results metadata s d :
  scope_contents (heap s) metadata = Some d →
  Forall2 (λ q found,
             (get_related_docs_from_store self store q metadata s).1 = Ok found)
    questions results →
  let run :=
    get_multiple_related_docs_from_store self store questions metadata s in
  run.1 = Ok (remove_duplicates (concat results))
  ∧ ∃ events, log run.2 = log s ++ events
      ∧ retrievals events =
          (λ q, (q, scope_of (heap s) metadata)) <$> questions.
Proof.
  intros Hd Hall run. unfold run.
  assert (Forall2 (λ q found, retrieval_result store q = Ok found)
            questions results) as Hres.
  { eapply Forall2_impl; [exact Hall|]. intros q found Hq. simpl in Hq.
    by rewrite (get_related_result _ _ _ _ _ d Hd) in Hq. }
  destruct (get_multiple_run self store questions metadata s d Hd)
    as (s' & -> & _ & Hlog).
  rewrite (batch_results_all _ _ _ Hres). split; [done|].
  eexists. split; [exact Hlog|]. apply batch_events_all.
  clear -Hres. induction Hres; constructor; eauto.
Qed.

Lemma get_multiple_concatenates_witness :
  scope_contents (heap example_state) (Some 1%positive) = Some example_scope
  ∧ (get_multiple_related_docs_from_store SemanticDocumentRetriever
       example_store ["q"; "r"] (Some 1%positive) example_state).1
    = Ok (remove_duplicates
            (concat [(take 20 example_hits).*1; (take 20 example_hits).*1])).
Proof.
  split; [reflexivity|].
  refine (proj1 (get_multiple_concatenates SemanticDocumentRetriever
                   example_store ["q"; "r"]
                   [(take 20 example_hits).*1; (take 20 example_hits).*1]
                   (Some 1%positive) example_state example_scope eq_refl _)).
  repeat constructor; vm_compute; reflexivity.
Defined.

Lemma batch_results_fails store before question after e :
  Forall (λ q, ∃ found, retrieval_result store q = Ok found) before →
  retrieval_result store question = Raise e →
  batch_results store (before ++ question :: after) = Raise e.
Proof.
  intros Hbefore Hq. induction Hbefore as [|q before [found Hfound] _ IH]; simpl.
  - by rewrite Hq.
  - by rewrite Hfound, IH.
Qed.

Lemma batch_events_fails store scope before question after e :
  Forall (λ q, ∃ found, retrieval_result store q = Ok found) before →
  retrieval_result store question = Raise e →
  retrievals (batch_events store scope (before ++ question :: after)) =
  (λ q, (q, scope)) <$> (before ++ [question]).
Proof.
  intros Hbefore Hq. induction Hbefore as [|q before [found Hfound] _ IH].
  - cbn [app batch_events]. rewrite Hq, retrievals_entry, app_nil_r.
    by rewrite retrievals_store_requests.
  - cbn [app batch_events]. rewrite Hfound, retrievals_entry, retrievals_app.
    by rewrite retrievals_store_requests, IH.
Qed.

(** X2. A batch stops at the first question whose retrieval raises: the
    exception comes out of the batch, and no retrieval is entered for the
    questions after it. *)
Theorem get_multiple_fails_fast self store before question after metadata
    s d e :
  scope_contents (heap s) metadata = Some d →
  Forall (λ q, ∃ found,
            (get_related_docs_from_store self store q metadata s).1 = Ok found)
    before →
  (get_related_docs_from_store self store question metadata s).1 = Raise e →
  let run :=
    get_multiple_related_docs_from_store self store
      (before ++ question :: after) metadata s in
  run.1 = Raise e
  ∧ ∃ events, log run.2 = log s ++ events
      ∧ retrievals events =
          (λ q, (q, scope_of (heap s) metadata)) <$> (before ++ [question]).
Proof.
  intros Hd Hbefore Hq run. unfold run.
  rewrite (get_related_result _ _ _ _ _ d Hd) in Hq.
  assert (Forall (λ q, ∃ found, retrieval_result store q = Ok found) before)
    as Hres.
  { eapply Forall_impl; [exact Hbefore|]. intros q [found Hfound].
    exists found. by rewrite (get_related_result _ _ _ _ _ d Hd) in Hfound. }
  destruct (get_multiple_run self store (before ++ question :: after) metadata
              s d Hd) as (s' & -> & _ & Hlog).
  rewrite (batch_results_fails _ _ _ _ _ Hres Hq). split; [done|].
  eexists. split; [exact Hlog|]. by eapply batch_events_fails.
Qed.

Lemma get_multiple_fails_fast_witness :
  scope_contents (heap example_state) None = Some ∅
  ∧ (get_related_docs_from_store SemanticDocumentRetriever flaky_store "bad"
       None example_state).1 = Raise (StoreError "index unavailable")
  ∧ (get_multiple_related_docs_from_store SemanticDocumentRetriever
       flaky_store (["q"] ++ "bad" :: ["r"]) None example_state).1
    = Raise (StoreError "index unavailable").
Proof.
  split; [reflexivity|]. split; [vm_compute; reflexivity|].
  refine (proj1 (get_multiple_fails_fast SemanticDocumentRetriever flaky_store
                   ["q"] "bad" ["r"] None example_state ∅
                   (StoreError "index unavailable") eq_refl _ _)).
  - repeat constructor. eexists. vm_compute. reflexivity.
  - vm_compute. reflexivity.
Defined.

(** X3. What a single-query retrieval returns has no repeated document, has
    at most 20 documents more than the diversity search gave, and consists
    of exactly the documents among the first 20 similarity hits and the
    diversity hits. *)
Theorem single_retrieval_bounds self store question metadata s docs s'
    ss_docs mmr_docs :
  get_related_docs_from_store self store question metadata s = (Ok docs, s') →
  similarity_search_with_score store question 50 None = Ok ss_docs →
  max_marginal_relevance_search store question 1 (1 # 2)%Q None = Ok mmr_docs →
  NoDup docs
  ∧ (length docs ≤ 20 + length mmr_docs)%nat
  ∧ (∀ doc, doc ∈ docs ↔ doc ∈ (take 20 ss_docs).*1 ∨ doc ∈ mmr_docs).
Proof.
  intros Hrun Hss Hmm. destruct self. simpl in Hrun.
  destruct (scope_contents (heap s) metadata) as [d|] eqn:Hd.
  - destruct (semantic_run s store question metadata d Hd) as (s1 & Hrun1 & _).
    rewrite Hrun1 in Hrun. unfold retrieval_result in Hrun.
    rewrite Hss, Hmm in Hrun. injection Hrun as <- _.
    split; [apply remove_duplicates_from_NoDup|]. split.
    + etrans; [apply sublist_length, remove_duplicates_from_sublist|].
      rewrite length_app, length_fmap, length_take. lia.
    + intros doc. unfold remove_duplicates.
      rewrite remove_duplicates_from_elem, elem_of_app. set_solver.
  - destruct metadata as [l|]; [|done]. simpl in Hd.
    by rewrite semantic_invalid in Hrun.
Qed.

Lemma single_retrieval_bounds_witness :
  ∃ docs,
    (get_related_docs_from_store SemanticDocumentRetriever example_store "q"
       None example_state).1 = Ok docs
    ∧ (length docs ≤ 20 + 1)%nat.
Proof.
  destruct (get_related_docs_from_store SemanticDocumentRetriever example_store
              "q" None example_state) as [[docs|e] s'] eqn:Hrun.
  - exists docs. split; [reflexivity|].
    exact (proj1 (proj2 (single_retrieval_bounds SemanticDocumentRetriever
                           example_store "q" None example_state docs s'
                           example_hits [letter_doc 3] Hrun eq_refl eq_refl))).
  - exfalso. revert Hrun. vm_compute. discriminate.
Defined.

Lemma batch_events_unfiltered store scope questions :
  Forall (λ e, request_filter e = None) (batch_events store scope questions).
Proof.
  induction questions as [|q rest IH]; [constructor|].
  cbn [batch_events]. constructor; [done|]. apply Forall_app. split.
  - apply store_requests_unfiltered.
  - destruct (retrieval_result store q); [exact IH|constructor].
Qed.

Lemma fan_out_events_unfiltered store question m :
  Forall (λ e, request_filter e = None) (fan_out_events store question m).
Proof.
  unfold fan_out_events. constructor; [done|]. apply Forall_app. split.
  - apply store_requests_unfiltered.
  - destruct (retrieval_result store question); [|constructor].
    constructor; [done|]. apply store_requests_unfiltered.
Qed.

Lemma get_multiple_invalid self store questions l s :
  heap s !! l = None →
  (get_multiple_related_docs_from_store self store questions (Some l) s).2 = s.
Proof.
  intros Hl. unfold get_multiple_related_docs_from_store.
  destruct questions as [|q rest]; [done|]. simpl. destruct self. simpl.
  unfold bind at 1. unfold bind at 1.
  by rewrite (semantic_invalid _ _ _ _ Hl).
Qed.

(** X4. No retrieval operation ever hands a filter to the store: whatever
    the metadata, and whether or not the store answers, every request that
    the single-query, the multi-query and the routed retrieval add to the log
    has no filter argument. *)
Theorem retrievals_send_no_filter self store question questions metadata s :
  (∃ events,
     log (get_related_docs_from_store self store question metadata s).2
       = log s ++ events
     ∧ Forall (λ e, request_filter e = None) events)
  ∧ (∃ events,
       log (get_multiple_related_docs_from_store self store questions
              metadata s).2 = log s ++ events
       ∧ Forall (λ e, request_filter e = None) events)
  ∧ (∃ events,
       log (get_related_docs_from_store_uhg store question metadata s).2
         = log s ++ events
       ∧ Forall (λ e, request_filter e = None) events).
Proof.
  assert (∃ events : list Event, log s = log s ++ events
            ∧ Forall (λ e, request_filter e = None) events) as Hnone.
  { exists []. by rewrite app_nil_r. }
  destruct (scope_contents (heap s) metadata) as [d|] eqn:Hd.
  - split; [|split].
    + destruct (get_related_run self s store question metadata d Hd)
        as (s' & -> & _ & Hlog).
      eexists. split; [exact Hlog|]. constructor; [done|].
      apply store_requests_unfiltered.
    + destruct (get_multiple_run self store questions metadata s d Hd)
        as (s' & -> & _ & Hlog).
      eexists. split; [exact Hlog|]. apply batch_events_unfiltered.
    + destruct metadata as [l|]; simpl in Hd.
      * destruct (d !! "set_number") as [v|] eqn:Hkey.
        -- rewrite (uhg_run_scoped _ _ _ _ _ Hd) by eauto.
           destruct (uhg_fan_out_run s store question l d Hd)
             as (s' & -> & _ & Hlog).
           eexists. split; [exact Hlog|]. apply fan_out_events_unfiltered.
        -- rewrite (uhg_run_lacking _ _ _ _ _ Hd Hkey).
           destruct (uhg_default_run s store question) as (s' & -> & _ & Hlog).
           eexists. split; [exact Hlog|]. constructor; [done|].
           apply store_requests_unfiltered.
      * rewrite uhg_run_absent.
        destruct (uhg_default_run s store question) as (s' & -> & _ & Hlog).
        eexists. split; [exact Hlog|]. constructor; [done|].
        apply store_requests_unfiltered.
  - destruct metadata as [l|]; [|done]. simpl in Hd. split; [|split].
    + destruct self. simpl. by rewrite semantic_invalid.
    + by rewrite get_multiple_invalid.
    + by rewrite uhg_run_invalid.
Qed.

Lemma batch_results_elem store questions :
  Forall (λ q, ∃ found, retrieval_result store q = Ok found) questions →
  ∃ all, batch_results store questions = Ok all
         ∧ ∀ doc, doc ∈ all ↔
             ∃ q found, q ∈ questions ∧ retrieval_result store q = Ok found
                        ∧ doc ∈ found.
Proof.
  induction 1 as [|q questions [found Hq] _ (more & Hmore & Helem)]; simpl.
  - exists []. split; [done|]. intros doc. split.
    + by intros ?%elem_of_nil.
    + by intros (? & ? & ?%elem_of_nil & _).
  - rewrite Hq, Hmore. exists (found ++ more). split; [done|].
    intros doc. rewrite elem_of_app, Helem. split.
    + intros [Hin|(q' & found' & Hq' & Hres & Hin)].
      * exists q, found. split; [left|done].
      * exists q', found'. split; [by right|done].
    + intros (q' & found' & Hq' & Hres & Hin).
      apply elem_of_cons in Hq' as [->|Hq'].
      * left. rewrite Hq in Hres. by injection Hres as ->.
      * right. eauto.
Qed.

(** X5. The result of a batch depends on the set of its questions only:
    two batches with the same questions, in any order and with any
    repetitions, whose retrievals return, give the same documents, each once
    (the two results are permutations of each other). *)
Theorem get_multiple_same_questions self store questions1 questions2
    metadata s d :
  scope_contents (heap s) metadata = Some d →
  (∀ q, q ∈ questions1 ↔ q ∈ questions2) →
  Forall (λ q, ∃ found,
            (get_related_docs_from_store self store q metadata s).1 = Ok found)
    questions1 →
  ∃ docs1 docs2,
    (get_multiple_related_docs_from_store self store questions1 metadata s).1
      = Ok docs1
    ∧ (get_multiple_related_docs_from_store self store questions2 metadata s).1
      = Ok docs2
    ∧ docs1 ≡ₚ docs2.
Proof.
  intros Hd Hsame Hall.
  assert (Forall (λ q, ∃ found, retrieval_result store q = Ok found) questions1)
    as Hres1.
  { eapply Forall_impl; [exact Hall|]. intros q [found Hfound].
    exists found. by rewrite (get_related_result _ _ _ _ _ d Hd) in Hfound. }
  assert (Forall (λ q, ∃ found, retrieval_result store q = Ok found) questions2)
    as Hres2.
  { rewrite Forall_forall in Hres1 |- *. intros q Hq. apply Hres1, Hsame, Hq. }
  destruct (batch_results_elem _ _ Hres1) as (all1 & Hall1 & Helem1).
  destruct (batch_results_elem _ _ Hres2) as (all2 & Hall2 & Helem2).
  destruct (get_multiple_run self store questions1 metadata s d Hd)
    as (s1 & -> & _).
  destruct (get_multiple_run self store questions2 metadata s d Hd)
    as (s2 & -> & _).
  rewrite Hall1, Hall2. eexists _, _. split; [done|]. split; [done|].
  apply NoDup_Permutation; try apply remove_duplicates_from_NoDup.
  intros doc. unfold remove_duplicates.
  rewrite !remove_duplicates_from_elem, Helem1, Helem2.
  split; intros [(q & found & Hq & Hrest) Hseen]; (split; [|done]);
    exists q, found; (split; [by apply Hsame|done]).
Qed.

Lemma get_multiple_same_questions_witness :
  scope_contents (heap example_state) None = Some ∅
  ∧ (∀ q : string, q ∈ ["q"; "r"] ↔ q ∈ ["r"; "q"; "r"])
  ∧ ∃ docs1 docs2,
      (get_multiple_related_docs_from_store SemanticDocumentRetriever
         example_store ["q"; "r"] None example_state).1 = Ok docs1
      ∧ (get_multiple_related_docs_from_store SemanticDocumentRetriever
           example_store ["r"; "q"; "r"] None example_state).1 = Ok docs2
      ∧ docs1 ≡ₚ docs2.
Proof.
  assert (∀ q : string, q ∈ ["q"; "r"] ↔ q ∈ ["r"; "q"; "r"]) as Hsame.
  { intros q. rewrite !elem_of_cons. tauto. }
  split; [reflexivity|]. split; [exact Hsame|].
  apply (get_multiple_same_questions SemanticDocumentRetriever example_store
           ["q"; "r"] ["r"; "q"; "r"] None example_state ∅ eq_refl Hsame).
  repeat constructor; eexists; vm_compute; reflexivity.
Defined.

(** X6. The routed retrieval returns what the single-query retrieval returns
    for the caller's own scope: once when the scope has no "set_number",
    twice in a row when it has; when the single-query retrieval raises, the
    routed retrieval raises the same exception. *)
Theorem uhg_result_from_single store question metadata s m :
  scope_contents (heap s) metadata = Some m →
  (get_related_docs_from_store_uhg store question metadata s).1 =
  match (get_related_docs_from_store SemanticDocumentRetriever store question
           metadata s).1 with
  | Ok found => Ok (if decide (is_Some (m !! "set_number"))
                    then found ++ found else found)
  | Raise e => Raise e
  end.
Proof.
  intros Hm.
  rewrite (get_related_result _ _ _ _ _ m Hm).
  assert ((uhg_default store question s).1 = retrieval_result store question)
    as Hdefault.
  { by destruct (uhg_default_run s store question) as (s' & -> & _). }
  destruct metadata as [l|]; simpl in Hm.
  - destruct (decide (is_Some (m !! "set_number"))) as [Hkey|Hkey].
    + rewrite (uhg_run_scoped _ _ _ _ _ Hm Hkey).
      by destruct (uhg_fan_out_run s store question l m Hm) as (s' & -> & _).
    + apply eq_None_not_Some in Hkey.
      rewrite (uhg_run_lacking _ _ _ _ _ Hm Hkey), Hdefault.
      by destruct (retrieval_result store question).
  - injection Hm as <-. rewrite uhg_run_absent, Hdefault.
    destruct (retrieval_result store question); [|done].
    by rewrite decide_False by (rewrite lookup_empty; by intros [? ?]).
Qed.

Lemma uhg_result_from_single_witness :
  scope_contents (heap example_state) (Some 1%positive) = Some example_scope
  ∧ (get_related_docs_from_store_uhg example_store "q" (Some 1%positive)
       example_state).1
    = Ok ((take 20 example_hits).*1 ++ (take 20 example_hits).*1).
Proof.
  split; [reflexivity|].
  rewrite (uhg_result_from_single example_store "q" (Some 1%positive)
             example_state example_scope eq_refl).
  vm_compute. reflexivity.
Defined.

(** * Properties of check_pipeline.py *)

Section ProgRuns.
Context {W E A B : Type}.
Implicit Types (m : Prog W E A) (f : A → Prog W E B) (w : W).

Lemma and_then_done m f w a w' : m w = (Done a, w') → and_then m f w = f a w'.
Proof. unfold and_then. by intros ->. Qed.

Lemma and_then_failed m f w e w' :
  m w = (Failed e, w') → and_then m f w = (Failed e, w').
Proof. unfold and_then. by intros ->. Qed.
End ProgRuns.

(** X7. [run_single_prediction] never raises and asks the API exactly once.
    It returns the answer of the last exchange when the API returns a
    conversation that has one; when the API raises, or returns a conversation
    without exchanges, it gives the exception to the logger and returns the
    apology. *)
Theorem run_single_prediction_never_raises env question context w :
  let run := CheckPipeline.run_single_prediction env question context w in
  CheckPipeline.asked run.2 = CheckPipeline.asked w ++ [(question, context)]
  ∧ CheckPipeline.session_id run.2 = CheckPipeline.session_id w
  ∧ CheckPipeline.comments run.2 = CheckPipeline.comments w
  ∧ match CheckPipeline.respond_api env question context with
    | Done conversation =>
        match last (CheckPipeline.exchanges conversation) with
        | Some exchange =>
            run.1 = Done (CheckPipeline.answer exchange)
            ∧ CheckPipeline.logged run.2 = CheckPipeline.logged w
        | None =>
            run.1 = Done CheckPipeline.apology
            ∧ CheckPipeline.logged run.2 =
                CheckPipeline.logged w
                ++ [CheckPipeline.InfoException CheckPipeline.IndexError]
        end
    | Failed e =>
        run.1 = Done CheckPipeline.apology
        ∧ CheckPipeline.logged run.2 =
            CheckPipeline.logged w ++ [CheckPipeline.InfoException e]
    end.
Proof.
  unfold CheckPipeline.run_single_prediction, try_except, and_then,
    CheckPipeline.call_respond_api.
  destruct (CheckPipeline.respond_api env question context) as [conversation|e];
    [destruct (last (CheckPipeline.exchanges conversation))|]; done.
Qed.

(** The parts of the world that a prediction leaves as they were. *)
Lemma run_single_prediction_run env question context w :
  ∃ text w',
    CheckPipeline.run_single_prediction env question context w = (Done text, w')
    ∧ CheckPipeline.asked w' = CheckPipeline.asked w ++ [(question, context)]
    ∧ CheckPipeline.session_id w' = CheckPipeline.session_id w
    ∧ CheckPipeline.comments w' = CheckPipeline.comments w.
Proof.
  unfold CheckPipeline.run_single_prediction, try_except, and_then,
    CheckPipeline.call_respond_api.
  destruct (CheckPipeline.respond_api env question context) as [conversation|e];
    [destruct (last (CheckPipeline.exchanges conversation))|];
    eexists _, _; (split; [reflexivity|done]).
Qed.

(** X8. A mode other than "batch" and "step" makes [run_pipeline] raise
    [ValueError]: nothing is read and nothing is asked, but by then
    [Container.session_id] and [Container.comments] have been overwritten and
    the session id has been logged. *)
Theorem run_pipeline_unknown_mode env mode csv_path comments w :
  mode ≠ "batch" → mode ≠ "step" →
  CheckPipeline.run_pipeline env mode csv_path comments w =
  (Failed (CheckPipeline.ValueError "Not implemented mode"),
   CheckPipeline.mkWorld (Some (CheckPipeline.uuid4 env)) comments
     (CheckPipeline.logged w
      ++ [CheckPipeline.Info ("Session id is: " +:+ CheckPipeline.uuid4 env)])
     (CheckPipeline.asked w)).
Proof.
  intros Hbatch Hstep. unfold CheckPipeline.run_pipeline.
  by rewrite !decide_False.
Qed.

Lemma run_pipeline_unknown_mode_witness :
  "stream" ≠ "batch" ∧ "stream" ≠ "step"
  ∧ (CheckPipeline.run_pipeline (example_env true []) "stream" None
       (Some "try") CheckPipeline.initial).1
    = Failed (CheckPipeline.ValueError "Not implemented mode").
Proof.
  assert ("stream" ≠ "batch") as H1 by discriminate.
  assert ("stream" ≠ "step") as H2 by discriminate.
  split; [exact H1|]. split; [exact H2|].
  by rewrite (run_pipeline_unknown_mode (example_env true []) "stream" None
                (Some "try") CheckPipeline.initial H1 H2).
Defined.

Lemma pipeline_prelude env comments w :
  (CheckPipeline.set_session_id (CheckPipeline.uuid4 env) ;;,
   CheckPipeline.info
     (CheckPipeline.Info ("Session id is: " +:+ CheckPipeline.uuid4 env)) ;;,
   CheckPipeline.set_comments comments) w =
  (Done tt,
   CheckPipeline.mkWorld (Some (CheckPipeline.uuid4 env)) comments
     (CheckPipeline.logged w
      ++ [CheckPipeline.Info ("Session id is: " +:+ CheckPipeline.uuid4 env)])
     (CheckPipeline.asked w)).
Proof. done. Qed.

Lemma step_loop_single env input_query idx w :
  ∃ w', CheckPipeline.step_loop env [input_query] idx w = (Done tt, w')
        ∧ CheckPipeline.asked w' =
            CheckPipeline.asked w
            ++ [(CheckPipeline.PyStr input_query, Some {[ "set_number" := "" ]})]
        ∧ CheckPipeline.session_id w' = CheckPipeline.session_id w
        ∧ CheckPipeline.comments w' = CheckPipeline.comments w.
Proof.
  cbn [CheckPipeline.step_loop].
  rewrite (and_then_done (CheckPipeline.info _) _ w tt _ eq_refl).
  match goal with
  | |- context [and_then (CheckPipeline.info ?r) _ ?w0] =>
      rewrite (and_then_done (CheckPipeline.info r) _ w0 tt _ eq_refl)
  end.
  match goal with
  | |- context [and_then (CheckPipeline.run_single_prediction ?e ?q ?c) _ ?w0] =>
      destruct (run_single_prediction_run e q c w0)
        as (text & w1 & Hrun & Hasked & Hsession & Hcomments);
      rewrite (and_then_done _ _ _ _ _ Hrun)
  end.
  rewrite (and_then_done (CheckPipeline.info _) _ w1 tt _ eq_refl).
  eexists. split; [reflexivity|]. simpl. by rewrite Hasked, Hsession, Hcomments.
Qed.

(** X9. In step mode [run_pipeline] never raises, whatever the API does, and
    asks exactly one question, the built-in one, with the context
    [{"set_number": ""}]. *)
Theorem run_pipeline_step env csv_path comments w :
  let run := CheckPipeline.run_pipeline env "step" csv_path comments w in
  run.1 = Done tt
  ∧ CheckPipeline.asked run.2 =
      CheckPipeline.asked w
      ++ [(CheckPipeline.PyStr
             "What has EQT management said about optimal capital structure",
           Some {[ "set_number" := "" ]})]
  ∧ CheckPipeline.session_id run.2 = Some (CheckPipeline.uuid4 env)
  ∧ CheckPipeline.comments run.2 = comments.
Proof.
  intros run.
  assert (∃ w', run = (Done tt, w')
            ∧ CheckPipeline.asked w' =
                CheckPipeline.asked w
                ++ [(CheckPipeline.PyStr
                       "What has EQT management said about optimal capital structure",
                     Some {[ "set_number" := "" ]})]
            ∧ CheckPipeline.session_id w' = Some (CheckPipeline.uuid4 env)
            ∧ CheckPipeline.comments w' = comments)
    as (w' & -> & Hasked & Hsession & Hcomments); [|done].
  unfold run, CheckPipeline.run_pipeline.
  rewrite decide_False by discriminate. rewrite decide_True by done.
  rewrite (and_then_done (CheckPipeline.set_session_id _) _ w tt _ eq_refl).
  match goal with
  | |- context [and_then (CheckPipeline.info ?r) _ ?w0] =>
      rewrite (and_then_done (CheckPipeline.info r) _ w0 tt _ eq_refl)
  end.
  match goal with
  | |- context [and_then (CheckPipeline.set_comments ?c) _ ?w0] =>
      rewrite (and_then_done (CheckPipeline.set_comments c) _ w0 tt _ eq_refl)
  end.
  match goal with
  | |- context [CheckPipeline.step_loop env [?q] 0 ?w0] =>
      destruct (step_loop_single env q 0 w0)
        as (w' & Hrun & Hasked & Hsession & Hcomments)
  end.
  exists w'. by rewrite Hrun, Hasked, Hsession, Hcomments.
Qed.

Lemma get_default_personalized_info_ok env r w :
  (∀ rendering, r !! "set_number" ≠ Some (CheckPipeline.PyOther rendering)) →
  ∃ w', CheckPipeline.get_default_personalized_info env r w =
          (Done (personal_info env r), w')
        ∧ CheckPipeline.asked w' = CheckPipeline.asked w
        ∧ CheckPipeline.session_id w' = CheckPipeline.session_id w
        ∧ CheckPipeline.comments w' = CheckPipeline.comments w.
Proof.
  intros Hcell.
  unfold CheckPipeline.get_default_personalized_info, personal_info.
  destruct (r !! "set_number") as [[s|rendering]|] eqn:Hr.
  - by exists w.
  - by destruct (Hcell rendering).
  - eexists. split; [reflexivity|done].
Qed.

(** One turn of the batch loop on a row that it gets through. *)
Lemma batch_loop_row env r rest i personalized_data w :
  CheckPipeline.personalization env = true → row_ok r →
  ∃ w' call,
    CheckPipeline.batch_loop env (r :: rest) i personalized_data w =
    CheckPipeline.batch_loop env rest (S i) (Some (personal_info env r)) w'
    ∧ row_call env r call
    ∧ CheckPipeline.asked w' = CheckPipeline.asked w ++ [call]
    ∧ CheckPipeline.session_id w' = CheckPipeline.session_id w
    ∧ CheckPipeline.comments w' = CheckPipeline.comments w.
Proof.
  intros Hpers [[question Hquestion] Hcell].
  cbn [CheckPipeline.batch_loop]. rewrite Hquestion, Hpers.
  rewrite (and_then_done (CheckPipeline.info _) _ w tt _ eq_refl).
  match goal with
  | |- context [and_then (pure question) _ ?w0] =>
      rewrite (and_then_done (pure question) _ w0 question _ eq_refl)
  end.
  match goal with
  | |- context [and_then (CheckPipeline.info ?r0) _ ?w0] =>
      rewrite (and_then_done (CheckPipeline.info r0) _ w0 tt _ eq_refl)
  end.
  match goal with
  | |- context [and_then (and_then
                  (CheckPipeline.get_default_personalized_info env r) _) _ ?w0] =>
      destruct (get_default_personalized_info_ok env r w0 Hcell)
        as (w1 & Hinfo & Hasked1 & Hsession1 & Hcomments1)
  end.
  rewrite (and_then_done _ _ _ (Some (personal_info env r)) w1)
    by (by rewrite (and_then_done _ _ _ _ _ Hinfo)).
  destruct (run_single_prediction_run env question (personal_info env r) w1)
    as (text & w2 & Hrun & Hasked2 & Hsession2 & Hcomments2).
  rewrite (and_then_done _ _ _ _ _ Hrun).
  rewrite (and_then_done (CheckPipeline.info _) _ w2 tt _ eq_refl).
  eexists _, (question, personal_info env r).
  split; [reflexivity|]. split; [done|]. simpl.
  by rewrite Hasked2, Hasked1, Hsession2, Hsession1, Hcomments2, Hcomments1.
Qed.

Lemma batch_loop_rows env good tail i personalized_data w :
  CheckPipeline.personalization env = true → Forall row_ok good →
  ∃ w' personalized_data' calls,
    CheckPipeline.batch_loop env (good ++ tail) i personalized_data w =
    CheckPipeline.batch_loop env tail (i + length good) personalized_data' w'
    ∧ Forall2 (row_call env) good calls
    ∧ CheckPipeline.asked w' = CheckPipeline.asked w ++ calls
    ∧ CheckPipeline.session_id w' = CheckPipeline.session_id w
    ∧ CheckPipeline.comments w' = CheckPipeline.comments w.
Proof.
  intros Hpers Hgood. revert i personalized_data w.
  induction Hgood as [|r good Hr _ IH]; intros i personalized_data w.
  - exists w, personalized_data, []. rewrite Nat.add_0_r, app_nil_r.
    repeat split; constructor.
  - destruct (batch_loop_row env r (good ++ tail) i personalized_data w Hpers Hr)
      as (w1 & call & Hrun1 & Hcall & Hasked1 & Hsession1 & Hcomments1).
    destruct (IH (S i) (Some (personal_info env r)) w1)
      as (w2 & pd2 & calls & Hrun2 & Hcalls & Hasked2 & Hsession2 & Hcomments2).
    exists w2, pd2, (call :: calls). split; [|split; [|split; [|split]]].
    + cbn [app length]. rewrite Hrun1, Hrun2. f_equal. lia.
    + by constructor.
    + rewrite Hasked2, Hasked1. by rewrite <- app_assoc.
    + by rewrite Hsession2.
    + by rewrite Hcomments2.
Qed.

Lemma run_pipeline_batch env csv_path comments w rows :
  CheckPipeline.read_csv env csv_path = Done rows →
  CheckPipeline.run_pipeline env "batch" csv_path comments w =
  CheckPipeline.batch_loop env rows 0 None
    (CheckPipeline.mkWorld (Some (CheckPipeline.uuid4 env)) comments
       (CheckPipeline.logged w
        ++ [CheckPipeline.Info ("Session id is: " +:+ CheckPipeline.uuid4 env)])
       (CheckPipeline.asked w)).
Proof.
  intros Hcsv. unfold CheckPipeline.run_pipeline. rewrite decide_True by done.
  rewrite (and_then_done (CheckPipeline.set_session_id _) _ w tt _ eq_refl).
  match goal with
  | |- context [and_then (CheckPipeline.info ?r) _ ?w0] =>
      rewrite (and_then_done (CheckPipeline.info r) _ w0 tt _ eq_refl)
  end.
  match goal with
  | |- context [and_then (CheckPipeline.set_comments ?c) _ ?w0] =>
      rewrite (and_then_done (CheckPipeline.set_comments c) _ w0 tt _ eq_refl)
  end.
  unfold and_then, external. by rewrite Hcsv.
Qed.

(** X10. Batch mode with personalization on: when every row has a question
    and a "set_number" cell that is a string or missing, [run_pipeline]
    returns normally and asks the API once per row, in row order, with the
    row's question and its personalization info (the lower-cased
    "set_number", or [None] when the row has none). *)
Theorem run_pipeline_batch_asks_each_row env csv_path comments w rows :
  CheckPipeline.personalization env = true →
  CheckPipeline.read_csv env csv_path = Done rows →
  Forall row_ok rows →
  let run := CheckPipeline.run_pipeline env "batch" csv_path comments w in
  run.1 = Done tt
  ∧ ∃ calls, CheckPipeline.asked run.2 = CheckPipeline.asked w ++ calls
             ∧ Forall2 (row_call env) rows calls.
Proof.
  intros Hpers Hcsv Hrows run. unfold run.
  rewrite (run_pipeline_batch _ _ _ _ _ Hcsv).
  match goal with
  | |- context [CheckPipeline.batch_loop env rows 0 None ?w0] =>
      destruct (batch_loop_rows env rows [] 0 None w0 Hpers Hrows)
        as (w' & pd & calls & Hrun & Hcalls & Hasked & _)
  end.
  rewrite app_nil_r in Hrun. rewrite Hrun. simpl. split; [done|].
  by exists calls.
Qed.

(** X11. Batch mode with personalization on stops at the first row that has
    no "question" cell ([KeyError]) or whose "set_number" cell is not a string
    ([AttributeError]): the exception leaves [run_pipeline], the rows before
    it have been asked, and neither that row nor any later one is. *)
Theorem run_pipeline_batch_stops_at_bad_row env csv_path comments w
    good bad rest e :
  CheckPipeline.personalization env = true →
  CheckPipeline.read_csv env csv_path = Done (good ++ bad :: rest) →
  Forall row_ok good →
  (bad !! "question" = None ∧ e = CheckPipeline.KeyError "question")
  ∨ (is_Some (bad !! "question")
     ∧ (∃ rendering,
          bad !! "set_number" = Some (CheckPipeline.PyOther rendering))
     ∧ e = CheckPipeline.AttributeError "lower") →
  let run := CheckPipeline.run_pipeline env "batch" csv_path comments w in
  run.1 = Failed e
  ∧ ∃ calls, CheckPipeline.asked run.2 = CheckPipeline.asked w ++ calls
             ∧ Forall2 (row_call env) good calls.
Proof.
  intros Hpers Hcsv Hgood Hbad run. unfold run.
  rewrite (run_pipeline_batch _ _ _ _ _ Hcsv).
  match goal with
  | |- context [CheckPipeline.batch_loop env _ 0 None ?w0] =>
      destruct (batch_loop_rows env good (bad :: rest) 0 None w0 Hpers Hgood)
        as (w' & pd & calls & Hrun & Hcalls & Hasked & _)
  end.
  rewrite Hrun. simpl in Hasked.
  assert (∃ w'', CheckPipeline.batch_loop env (bad :: rest) (0 + length good)
                   pd w' = (Failed e, w'')
                 ∧ CheckPipeline.asked w'' = CheckPipeline.asked w')
    as (w'' & -> & Hasked'').
  { cbn [CheckPipeline.batch_loop].
    rewrite (and_then_done (CheckPipeline.info _) _ w' tt _ eq_refl).
    destruct Hbad as [[Hq ->]|([question Hq] & [rendering Hcell] & ->)];
      rewrite Hq.
    - eexists. split; [reflexivity|done].
    - match goal with
      | |- context [and_then (pure question) _ ?w0] =>
          rewrite (and_then_done (pure question) _ w0 question _ eq_refl)
      end.
      match goal with
      | |- context [and_then (CheckPipeline.info ?r0) _ ?w0] =>
          rewrite (and_then_done (CheckPipeline.info r0) _ w0 tt _ eq_refl)
      end.
      rewrite Hpers. unfold CheckPipeline.get_default_personalized_info.
      rewrite Hcell. eexists. split; [reflexivity|done]. }
  simpl. split; [done|]. exists calls. by rewrite Hasked'', Hasked.
Qed.

(** X12. Batch mode with personalization off: on the first row the local
    variable [personalized_data] is read before it was ever assigned, so
    for any table with at least one row (whose first row has a question)
    [run_pipeline] raises [UnboundLocalError] without asking anything. *)
Theorem run_pipeline_batch_unbound env csv_path comments w r rest :
  CheckPipeline.personalization env = false →
  CheckPipeline.read_csv env csv_path = Done (r :: rest) →
  is_Some (r !! "question") →
  let run := CheckPipeline.run_pipeline env "batch" csv_path comments w in
  run.1 = Failed (CheckPipeline.UnboundLocalError "personalized_data")
  ∧ CheckPipeline.asked run.2 = CheckPipeline.asked w.
Proof.
  intros Hpers Hcsv [question Hq] run. unfold run.
  rewrite (run_pipeline_batch _ _ _ _ _ Hcsv).
  cbn [CheckPipeline.batch_loop]. rewrite Hq, Hpers.
  by unfold and_then.
Qed.

Lemma row_first_ok : row_ok row_first.
Proof.
  split; [by exists (CheckPipeline.PyStr "first")|].
  intros rendering. vm_compute. discriminate.
Defined.

Lemma row_second_ok : row_ok row_second.
Proof.
  split; [by exists (CheckPipeline.PyStr "second")|].
  intros rendering. vm_compute. discriminate.
Defined.

Lemma run_pipeline_batch_asks_each_row_witness :
  Forall row_ok [row_first; row_second]
  ∧ (CheckPipeline.run_pipeline (example_env true [row_first; row_second])
       "batch" (Some "questions.csv") None CheckPipeline.initial).1 = Done tt.
Proof.
  assert (Forall row_ok [row_first; row_second]) as Hrows
    by (constructor; [apply row_first_ok|];
        constructor; [apply row_second_ok|constructor]).
  split; [exact Hrows|].
  exact (proj1 (run_pipeline_batch_asks_each_row
                  (example_env true [row_first; row_second])
                  (Some "questions.csv") None CheckPipeline.initial
                  [row_first; row_second] eq_refl eq_refl Hrows)).
Defined.

Lemma run_pipeline_batch_stops_at_bad_row_witness :
  Forall row_ok [row_first]
  ∧ row_numeric !! "set_number" = Some (CheckPipeline.PyOther "7")
  ∧ ∃ calls,
      CheckPipeline.asked
        (CheckPipeline.run_pipeline
           (example_env true ([row_first] ++ row_numeric :: [row_second]))
           "batch" (Some "questions.csv") None CheckPipeline.initial).2
      = CheckPipeline.asked CheckPipeline.initial ++ calls
      ∧ Forall2
          (row_call (example_env true
                       ([row_first] ++ row_numeric :: [row_second])))
          [row_first] calls.
Proof.
  assert (Forall row_ok [row_first]) as Hrows
    by (constructor; [apply row_first_ok|constructor]).
  split; [exact Hrows|]. split; [reflexivity|].
  refine (proj2 (run_pipeline_batch_stops_at_bad_row
                   (example_env true ([row_first] ++ row_numeric :: [row_second]))
                   (Some "questions.csv") None CheckPipeline.initial
                   [row_first] row_numeric [row_second]
                   (CheckPipeline.AttributeError "lower")
                   eq_refl eq_refl Hrows _)).
  right. split; [by exists (CheckPipeline.PyStr "third")|].
  split; [by exists "7"|done].
Defined.

Lemma run_pipeline_batch_unbound_witness :
  is_Some (row_first !! "question")
  ∧ (CheckPipeline.run_pipeline (example_env false [row_first; row_second])
       "batch" (Some "questions.csv") None CheckPipeline.initial).1
    = Failed (CheckPipeline.UnboundLocalError "personalized_data").
Proof.
  assert (is_Some (row_first !! "question")) as Hq
    by (by exists (CheckPipeline.PyStr "first")).
  split; [exact Hq|].
  exact (proj1 (run_pipeline_batch_unbound
                  (example_env false [row_first; row_second])
                  (Some "questions.csv") None CheckPipeline.initial
                  row_first [row_second] eq_refl eq_refl Hq)).
Defined.

(** * Properties of bq_utils.py *)




Lemma get_dataset_id_configured {σ} env (svc : BqUtils.Service σ) w
    project dataset :
  BqUtils.config env !! "bq_project_id" = Some (BqUtils.CfgStr project) →
  project ≠ "" →
  BqUtils.config env !! "dataset_name" = Some (BqUtils.CfgStr dataset) →
  BqUtils.get_dataset_id env svc w = (Done (project +:+ "." +:+ dataset), w).
Proof.
  intros Hproject Hne Hdataset. unfold BqUtils.get_dataset_id.
  rewrite Hproject, Hdataset. unfold and_then, pure. simpl.
  by rewrite bool_decide_true.
Qed.

(** X14. [get_dataset_id] returns "<project>.<dataset>". A non-empty
    "bq_project_id" of the configuration is the project, and then nothing is
    requested. Otherwise the project is the one that authentication
    determines, and when it determines none the result starts with "None.":
    no [ValueError] is raised. A key missing from the configuration is a
    [KeyError]. *)
Theorem get_dataset_id_result {σ} env (svc : BqUtils.Service σ) w :
  let run := BqUtils.get_dataset_id env svc w in
  (∀ project dataset,
     BqUtils.config env !! "bq_project_id" = Some (BqUtils.CfgStr project) →
     project ≠ "" →
     BqUtils.config env !! "dataset_name" = Some (BqUtils.CfgStr dataset) →
     run = (Done (project +:+ "." +:+ dataset), w))
  ∧ (∀ configured dataset found b,
       BqUtils.config env !! "bq_project_id" = Some configured →
       BqUtils.cfg_truthy configured = false →
       BqUtils.config env !! "dataset_name" = Some (BqUtils.CfgStr dataset) →
       BqUtils.auth_default svc (BqUtils.backend w) = (Done found, b) →
       run.1 = Done (match found with
                     | Some project => project
                     | None => "None"
                     end +:+ "." +:+ dataset))
  ∧ (BqUtils.config env !! "bq_project_id" = None →
     run = (Failed (BqUtils.KeyError "bq_project_id"), w)).
Proof.
  unfold BqUtils.get_dataset_id. split; [|split].
  - intros project dataset Hproject Hne Hdataset.
    by apply get_dataset_id_configured.
  - intros configured dataset found b -> Hfalsy -> Hauth. rewrite Hfalsy.
    unfold and_then, BqUtils.invoke, pure. by rewrite Hauth.
  - by intros ->.
Qed.

Lemma get_dataset_id_result_witness :
  BqUtils.config example_config !! "bq_project_id"
  = Some (BqUtils.CfgStr "demo-project")
  ∧ "demo-project" ≠ ""
  ∧ BqUtils.config example_config !! "dataset_name" = Some (BqUtils.CfgStr "logs")
  ∧ BqUtils.get_dataset_id example_config (example_service true)
      (example_world ∅)
    = (Done ("demo-project" +:+ "." +:+ "logs"), example_world ∅).
Proof.
  assert ("demo-project" ≠ "") as Hne by discriminate.
  split; [reflexivity|]. split; [exact Hne|]. split; [reflexivity|].
  exact (proj1 (get_dataset_id_result example_config (example_service true)
                  (example_world ∅))
           "demo-project" "logs" eq_refl Hne eq_refl).
Defined.

(** X15. When [create_bq_client] has returned [None] and the dataset id is
    obtained, [insert_data_to_table] does not return [False]: it raises
    [AttributeError] on [client.get_table], and no table is looked up and no
    row is inserted. *)
Theorem insert_data_to_table_without_client {σ} env (svc : BqUtils.Service σ)
    table_name data w w1 dataset_id w2 :
  BqUtils.create_bq_client svc None w = (Done None, w1) →
  BqUtils.get_dataset_id env svc w1 = (Done dataset_id, w2) →
  BqUtils.insert_data_to_table env svc table_name data w =
  (Failed (BqUtils.AttributeError "get_table"), w2).
Proof.
  intros Hclient Hdataset. unfold BqUtils.insert_data_to_table.
  by rewrite (and_then_done _ _ _ _ _ Hclient), (and_then_done _ _ _ _ _ Hdataset).
Qed.

Lemma insert_data_to_table_without_client_witness :
  BqUtils.insert_data_to_table example_config (example_service false)
    "questions" {[ "question" := "why" ]} (example_world ∅)
  = (Failed (BqUtils.AttributeError "get_table"),
     BqUtils.mkWorld ∅ [BqUtils.AuthDefault] None).
Proof.
  exact (insert_data_to_table_without_client example_config
           (example_service false) "questions" {[ "question" := "why" ]}
           (example_world ∅) (BqUtils.mkWorld ∅ [BqUtils.AuthDefault] None)
           "demo-project.logs" (BqUtils.mkWorld ∅ [BqUtils.AuthDefault] None)
           eq_refl eq_refl).
Defined.

(** X16. [log_question] returns the UUID of the normalised question and
    stores it in [Container.question_id] whenever [insert_data_to_table]
    returns, whether it reports success or failure; when the insertion
    raises, the exception leaves [log_question] and [Container.question_id]
    keeps its value. *)
Theorem log_question_outcome {σ} env (svc : BqUtils.Service σ) question w :
  let question_id :=
    BqUtils.uuid5_dns env (BqUtils.strip_non_word (BqUtils.lower question)) in
  let data : dict := {[ "question_id" := question_id;
                        "question" := question;
                        "parent_question_id" := "" ]} in
  let run := BqUtils.log_question env svc question w in
  (∀ status w1,
     BqUtils.insert_data_to_table env svc "questions" data w = (Done status, w1) →
     run = (Done question_id,
            BqUtils.mkWorld (BqUtils.backend w1) (BqUtils.calls w1)
              (Some question_id)))
  ∧ (∀ e w1,
       BqUtils.insert_data_to_table env svc "questions" data w = (Failed e, w1) →
       run = (Failed e, w1)).
Proof.
  intros question_id data run. unfold run, BqUtils.log_question.
  fold question_id. fold data. split.
  - intros status w1 Hinsert. by rewrite (and_then_done _ _ _ _ _ Hinsert).
  - intros e w1 Hinsert. by rewrite (and_then_failed _ _ _ _ _ Hinsert).
Qed.

Lemma log_question_outcome_witness :
  (BqUtils.log_question example_config (example_service false) "Why?"
     (example_world ∅)).1 = Failed (BqUtils.AttributeError "get_table")
  ∧ BqUtils.question_id
      (BqUtils.log_question example_config (example_service false) "Why?"
         (example_world ∅)).2 = None.
Proof.
  rewrite (proj2 (log_question_outcome example_config (example_service false)
                    "Why?" (example_world ∅))
             (BqUtils.AttributeError "get_table")
             (BqUtils.mkWorld ∅ [BqUtils.AuthDefault] None) eq_refl).
  by split.
Defined.

Lemma lower_char_not_word c :
  BqUtils.word_char c = false → BqUtils.lower_char c = c.
Proof.
  unfold BqUtils.word_char, BqUtils.lower_char. intros Hc.
  apply bool_decide_eq_false in Hc.
  destruct (decide (65 ≤ Ascii.nat_of_ascii c ∧ Ascii.nat_of_ascii c ≤ 90)%nat);
    [|done].
  exfalso. apply Hc. tauto.
Qed.

Lemma lower_char_twice c :
  BqUtils.lower_char (BqUtils.lower_char c) = BqUtils.lower_char c.
Proof.
  destruct c as [[] [] [] [] [] [] [] []]; vm_compute; reflexivity.
Qed.

Lemma lower_twice s : BqUtils.lower (BqUtils.lower s) = BqUtils.lower s.
Proof. induction s as [|c s IH]; simpl; [done|]. by rewrite lower_char_twice, IH. Qed.

Lemma normalise_drops before c after :
  BqUtils.word_char c = false →
  BqUtils.strip_non_word (BqUtils.lower (before +:+ String c after)) =
  BqUtils.strip_non_word (BqUtils.lower (before +:+ after)).
Proof.
  intros Hc. induction before as [|b before IH]; simpl.
  - by rewrite (lower_char_not_word c Hc), Hc.
  - by rewrite IH.
Qed.

Lemma log_question_id {σ} env (svc : BqUtils.Service σ) question w id :
  (BqUtils.log_question env svc question w).1 = Done id →
  id = BqUtils.uuid5_dns env (BqUtils.strip_non_word (BqUtils.lower question)).
Proof.
  unfold BqUtils.log_question, and_then.
  destruct (BqUtils.insert_data_to_table env svc "questions" _ w)
    as [[status|e] w1]; simpl; [|done].
  by intros [= <-].
Qed.

(** X17. On ASCII text the question id does not see letter case nor the
    characters other than letters, digits and the underscore: a question, the
    same question with one such character taken out, and the same question
    in lower case all get the same id from [log_question]. *)
Theorem log_question_id_ignores_case_and_punctuation {σ} env
    (svc : BqUtils.Service σ) before c after w w' id id' :
  ascii_only (before +:+ String c after) →
  BqUtils.word_char c = false →
  (BqUtils.log_question env svc (before +:+ String c after) w).1 = Done id →
  ((BqUtils.log_question env svc (before +:+ after) w').1 = Done id' →
   id = id')
  ∧ ((BqUtils.log_question env svc
        (BqUtils.lower (before +:+ String c after)) w').1 = Done id' →
     id = id').
Proof.
  intros _ Hc Hid. apply log_question_id in Hid as ->. split.
  - intros ->%log_question_id. by rewrite (normalise_drops _ _ _ Hc).
  - intros ->%log_question_id. by rewrite lower_twice.
Qed.

Lemma log_question_id_ignores_case_and_punctuation_witness :
  ascii_only ("Why" +:+ String (Ascii.ascii_of_nat 63) "")
  ∧ BqUtils.word_char (Ascii.ascii_of_nat 63) = false
  ∧ (BqUtils.log_question example_config (example_service true)
       ("Why" +:+ String (Ascii.ascii_of_nat 63) "")
       (example_world {[ "demo-project.logs.questions" ]})).1
    = Done "uuid5:why"
  ∧ ∀ id',
      (BqUtils.log_question example_config (example_service true)
         ("Why" +:+ "") (example_world ∅)).1 = Done id' →
      "uuid5:why" = id'.
Proof.
  assert (ascii_only ("Why" +:+ String (Ascii.ascii_of_nat 63) "")) as Hascii
    by (vm_compute; repeat split; lia).
  assert ((BqUtils.log_question example_config (example_service true)
             ("Why" +:+ String (Ascii.ascii_of_nat 63) "")
             (example_world {[ "demo-project.logs.questions" ]})).1
          = Done "uuid5:why")
    as Hid by (vm_compute; reflexivity).
  split; [exact Hascii|]. split; [reflexivity|]. split; [exact Hid|].
  intros id'.
  exact (proj1 (log_question_id_ignores_case_and_punctuation example_config
                  (example_service true) "Why" (Ascii.ascii_of_nat 63) ""
                  (example_world {[ "demo-project.logs.questions" ]})
                  (example_world ∅) "uuid5:why" id' Hascii eq_refl Hid)).
Defined.





Lemma report_errors_ok {σ} (errors : list dict) (w : BqUtils.World σ) :
  Forall (λ error : dict, is_Some (error !! "message")) errors →
  BqUtils.report_errors errors w = (Done tt, w).
Proof.
  induction 1 as [|error errors [msg Hmsg] _ IH]; simpl; [done|].
  by rewrite Hmsg.
Qed.

Lemma report_errors_not_api {σ} (errors : list dict) (w : BqUtils.World σ) e :
  (BqUtils.report_errors errors w).1 = Failed e →
  BqUtils.is_google_api_error e = false.
Proof.
  induction errors as [|error errors IH]; simpl; [done|].
  destruct (error !! "message"); [exact IH|]. by intros [= <-].
Qed.

(** X20. [load_data_to_bq] never lets a [GoogleAPIError] out. When the load
    job fails with one and each error of the job has a "message", the call
    returns normally, as it does after a successful load. *)
Theorem load_data_to_bq_swallows_api_errors {σ} (svc : BqUtils.Service σ)
    client table_id schema df w :
  let run := BqUtils.load_data_to_bq svc client table_id schema df w in
  (∀ e, run.1 = Failed e → BqUtils.is_google_api_error e = false)
  ∧ (∀ job b e b' errors,
       BqUtils.load_table_from_dataframe svc df table_id schema
         (BqUtils.backend w) = (Done job, b) →
       BqUtils.job_result svc job b = (Failed e, b') →
       BqUtils.is_google_api_error e = true →
       BqUtils.job_errors svc job b' = Some errors →
       Forall (λ error : dict, is_Some (error !! "message")) errors →
       run = (Done tt,
              BqUtils.mkWorld b'
                (BqUtils.calls w
                 ++ [BqUtils.LoadTableFromDataframe df table_id schema;
                     BqUtils.JobResult job])
                (BqUtils.question_id w))).
Proof.
  unfold BqUtils.load_data_to_bq, try_except, BqUtils.invoke. split.
  - intros e.
    destruct (BqUtils.load_table_from_dataframe svc df table_id schema
                (BqUtils.backend w)) as [[job|e1] b1]; simpl.
    + destruct (BqUtils.job_result svc job b1) as [[[]|e2] b2]; simpl; [done|].
      destruct (BqUtils.is_google_api_error e2) eqn:He2; simpl.
      * destruct (BqUtils.job_errors svc job b2) as [[|error rest]|]; try done.
        apply (report_errors_not_api (error :: rest)).
      * by intros [= <-].
    + destruct (BqUtils.is_google_api_error e1) eqn:He1; simpl; [done|].
      by intros [= <-].
  - intros job b e b' errors Hload Hresult Hapi Herrors Hmessages.
    rewrite Hload. cbn -[BqUtils.report_errors].
    rewrite Hresult, Hapi. cbn -[BqUtils.report_errors]. rewrite Herrors.
    destruct errors as [|error rest]; [by rewrite <- app_assoc|].
    rewrite (report_errors_ok _ _ Hmessages). by rewrite <- app_assoc.
Qed.

Lemma load_data_to_bq_swallows_api_errors_witness :
  BqUtils.is_google_api_error (BqUtils.GoogleAPIError "load failed") = true
  ∧ Forall (λ error : dict, is_Some (error !! "message"))
      [ ({[ "message" := "bad row" ]} : dict) ]
  ∧ (BqUtils.load_data_to_bq (example_service true) (BqUtils.mkClient None)
       "demo.logs.t" [("question", "STRING")] [ {[ "question" := "why" ]} ]
       (example_world ∅)).1 = Done tt.
Proof.
  assert (Forall (λ error : dict, is_Some (error !! "message"))
            [ ({[ "message" := "bad row" ]} : dict) ]) as Hmessages.
  { constructor; [by exists "bad row"|constructor]. }
  split; [reflexivity|]. split; [exact Hmessages|].
  by rewrite (proj2 (load_data_to_bq_swallows_api_errors (example_service true)
                       (BqUtils.mkClient None) "demo.logs.t"
                       [("question", "STRING")] [ {[ "question" := "why" ]} ]
                       (example_world ∅))
                0%nat ∅ (BqUtils.GoogleAPIError "load failed") ∅
                [ {[ "message" := "bad row" ]} ]
                eq_refl eq_refl eq_refl eq_refl Hmessages).
Defined.

(** X21. With a project id in the configuration, a working authentication and
    client, and a table that exists, [insert_data_to_table] authenticates,
    builds a client, looks up the table "<project>.<dataset>.<table_name>"
    and inserts exactly the one row it was given, in this order; it returns
    [True] exactly when the insertion reports no errors. *)
Theorem insert_data_to_table_requests {σ} env (svc : BqUtils.Service σ)
    table_name data w project dataset found b1 b2 b3 errors b4 :
  BqUtils.config env !! "bq_project_id" = Some (BqUtils.CfgStr project) →
  project ≠ "" →
  BqUtils.config env !! "dataset_name" = Some (BqUtils.CfgStr dataset) →
  BqUtils.auth_default svc (BqUtils.backend w) = (Done found, b1) →
  BqUtils.new_client svc found b1 = (Done tt, b2) →
  let table := (project +:+ "." +:+ dataset) +:+ "." +:+ table_name in
  BqUtils.get_table svc table b2 = (Done tt, b3) →
  BqUtils.insert_rows_json svc table [data] b3 = (Done errors, b4) →
  BqUtils.insert_data_to_table env svc table_name data w =
  (Done (bool_decide (errors = [])),
   BqUtils.mkWorld b4
     (BqUtils.calls w
      ++ [BqUtils.AuthDefault; BqUtils.NewClient found; BqUtils.GetTable table;
          BqUtils.InsertRowsJson table [data]])
     (BqUtils.question_id w)).
Proof.
  intros Hproject Hne Hdataset Hauth Hclient table Htable Hinsert.
  unfold BqUtils.insert_data_to_table.
  set (w2 := BqUtils.mkWorld b2
               (BqUtils.calls w ++ [BqUtils.AuthDefault; BqUtils.NewClient found])
               (BqUtils.question_id w)).
  assert (BqUtils.create_bq_client svc None w
          = (Done (Some (BqUtils.mkClient found)), w2)) as Hcreate.
  { unfold BqUtils.create_bq_client, and_then, try_except, BqUtils.invoke, pure.
    simpl. rewrite Hauth. simpl. rewrite Hclient. simpl.
    unfold w2. by rewrite <- app_assoc. }
  rewrite (and_then_done _ _ _ _ _ Hcreate).
  rewrite (and_then_done _ _ _ _ _
             (get_dataset_id_configured env svc w2 project dataset
                Hproject Hne Hdataset)).
  fold table. unfold and_then, BqUtils.invoke, pure. simpl.
  rewrite Htable. simpl. rewrite Hinsert. simpl.
  by rewrite <- !app_assoc.
Qed.

Lemma insert_data_to_table_requests_witness :
  "demo-project" ≠ ""
  ∧ BqUtils.insert_data_to_table example_config (example_service true)
      "questions" {[ "question" := "why" ]}
      (example_world {[ "demo-project.logs.questions" ]})
    = (Done true,
       BqUtils.mkWorld {[ "demo-project.logs.questions" ]}
         [BqUtils.AuthDefault; BqUtils.NewClient (Some "demo-project");
          BqUtils.GetTable "demo-project.logs.questions";
          BqUtils.InsertRowsJson "demo-project.logs.questions"
            [ {[ "question" := "why" ]} ]]
         None).
Proof.
  assert ("demo-project" ≠ "") as Hne by discriminate.
  split; [exact Hne|].
  exact (insert_data_to_table_requests example_config (example_service true)
           "questions" {[ "question" := "why" ]}
           (example_world {[ "demo-project.logs.questions" ]})
           "demo-project" "logs" (Some "demo-project")
           {[ "demo-project.logs.questions" ]}
           {[ "demo-project.logs.questions" ]}
           {[ "demo-project.logs.questions" ]} []
           {[ "demo-project.logs.questions" ]}
           eq_refl Hne eq_refl eq_refl eq_refl eq_refl eq_refl).
Defined.
